(** * Resume / job-description matching: the ranking core

    A shallow embedding of [backend/utils/preprocess.py],
    [backend/utils/matcher.py] and the [/match] endpoint of
    [backend/app.py].

    - Python [str] values are modelled by [string]: the texts are ASCII
      texts, and lowercasing, word characters and white space are those of
      ASCII; other characters are not covered.
    - The NLTK resources used by [preprocess_text] (tokenizer, stop word
      set, lemmatizer) are an interface, [Nltk]; a small reference instance
      is given in [Module RefNltk].
    - scikit-learn's [TfidfVectorizer().fit_transform] and
      [cosine_similarity] are modelled with their default parameters, in
      two ways.  [Module Sklearn] and [match_resumes] give the weights and
      scores their exact real values ([R]); what is proved of them is what
      rounding leaves untouched (which outcome a call has, which scores are
      zero, positive or equal, the order and the names of the entries).
      [Module F64] computes the same pipeline in 64-bit floats, operation
      by operation, and shows where the rounded scores leave the exact
      ones.
    - A Python exception is a value [Raise e] of [result]. *)

From Stdlib Require Import List String Ascii Bool Arith PeanoNat Lia.
From Stdlib Require Import Permutation Sorted.
From Stdlib Require Import Reals Lra Psatz.
From Stdlib Require Import DecimalString QArith.
From Stdlib Require Floats Uint63.
Import ListNotations.

Open Scope string_scope.
Open Scope nat_scope.

(** * Exceptions and results *)

Inductive exn : Type :=
| ValueError (msg : string).

Inductive result (A : Type) : Type :=
| Ok (a : A)
| Raise (e : exn).
Arguments Ok {A} a.
Arguments Raise {A} e.

Definition bind {A B : Type} (r : result A) (k : A -> result B) : result B :=
  match r with
  | Ok a => k a
  | Raise e => Raise e
  end.

Notation "x <- r ;; k" := (bind r (fun x => k))
  (at level 61, r at next level, right associativity).

(** The two messages a call of [match_resumes] can fail with: the first is
    raised by [match_resumes] itself, the second by the vectorizer. *)
Definition length_mismatch : exn :=
  ValueError "resume_texts and resume_names must have the same length".

Definition empty_vocabulary : exn :=
  ValueError "empty vocabulary; perhaps the documents only contain stop words".

(** * Python string operations *)

Module PyStr.

(** [str.lower] on ASCII letters; other characters are unchanged. *)
Definition lower_char (c : ascii) : ascii :=
  let n := nat_of_ascii c in
  if (65 <=? n) && (n <=? 90) then ascii_of_nat (n + 32) else c.

Fixpoint lower (s : string) : string :=
  match s with
  | EmptyString => EmptyString
  | String c s' => String (lower_char c) (lower s')
  end.

(** [t in s] for two strings: [t] occurs in [s] as a substring. *)
Fixpoint contains (s t : string) : bool :=
  String.prefix t s ||
  match s with
  | EmptyString => false
  | String _ s' => contains s' t
  end.

(** [sep.join(parts)] *)
Definition join (sep : string) (parts : list string) : string :=
  String.concat sep parts.

(** [string.punctuation]: the 32 ASCII punctuation characters, in code
    order; the second one is the double quote (code 34). *)
Definition punctuation : string :=
  String "!" (String "034"%char "#$%&'()*+,-./:;<=>?@[\]^_`{|}~").

End PyStr.

(** * The NLTK resources

    [word_tokenize], the English stop word set and the WordNet lemmatizer
    come from NLTK and its corpora; the program only calls them. *)

Class Nltk : Type := {
  word_tokenize : string -> list string;
  stop_words : list string;
  lemmatize : string -> string
}.

(** [token in stop_words] *)
Definition in_set (token : string) (set : list string) : bool :=
  existsb (String.eqb token) set.

Section Preprocess.

Context {nltk : Nltk}.

(** The guard of the loop body of [preprocess_text]:
    [token not in string.punctuation and token not in stop_words]. *)
Definition keep_token (token : string) : bool :=
  negb (PyStr.contains PyStr.punctuation token) && negb (in_set token stop_words).

(** The loop of [preprocess_text] over [tokens], building
    [processed_tokens] in order. *)
Fixpoint process_tokens (tokens : list string) : list string :=
  match tokens with
  | [] => []
  | token :: rest =>
      if keep_token token
      then lemmatize token :: process_tokens rest
      else process_tokens rest
  end.

Definition preprocess_text (text : string) : string :=
  let text := PyStr.lower text in
  let tokens := word_tokenize text in
  let processed_tokens := process_tokens tokens in
  PyStr.join " " processed_tokens.

End Preprocess.

(** * A reference instance of the NLTK interface *)

Module RefNltk.

Definition is_space (c : ascii) : bool :=
  let n := nat_of_ascii c in
  (n =? 32) || ((9 <=? n) && (n <=? 13)).

Definition is_punct (c : ascii) : bool :=
  PyStr.contains PyStr.punctuation (String c EmptyString).

Definition flush (cur : string) : list string :=
  match cur with
  | EmptyString => []
  | _ => [cur]
  end.

(** Words are separated by blanks; every punctuation character is a
    token of its own.  On texts made of words, blanks, commas and a final
    full stop this is what NLTK's [word_tokenize] returns. *)
Fixpoint split_words (s : string) (cur : string) : list string :=
  match s with
  | EmptyString => flush cur
  | String c s' =>
      if is_space c then flush cur ++ split_words s' EmptyString
      else if is_punct c then
        flush cur ++ String c EmptyString :: split_words s' EmptyString
      else split_words s' (cur ++ String c EmptyString)
  end.

Definition tokenize (s : string) : list string := split_words s EmptyString.

(** The English stop word list of the NLTK corpus. *)
Definition english : list string :=
  ["i"; "me"; "my"; "myself"; "we"; "our"; "ours"; "ourselves"; "you";
   "you're"; "you've"; "you'll"; "you'd"; "your"; "yours"; "yourself";
   "yourselves"; "he"; "him"; "his"; "himself"; "she"; "she's"; "her";
   "hers"; "herself"; "it"; "it's"; "its"; "itself"; "they"; "them";
   "their"; "theirs"; "themselves"; "what"; "which"; "who"; "whom";
   "this"; "that"; "that'll"; "these"; "those"; "am"; "is"; "are"; "was";
   "were"; "be"; "been"; "being"; "have"; "has"; "had"; "having"; "do";
   "does"; "did"; "doing"; "a"; "an"; "the"; "and"; "but"; "if"; "or";
   "because"; "as"; "until"; "while"; "of"; "at"; "by"; "for"; "with";
   "about"; "against"; "between"; "into"; "through"; "during"; "before";
   "after"; "above"; "below"; "to"; "from"; "up"; "down"; "in"; "out";
   "on"; "off"; "over"; "under"; "again"; "further"; "then"; "once";
   "here"; "there"; "when"; "where"; "why"; "how"; "all"; "any"; "both";
   "each"; "few"; "more"; "most"; "other"; "some"; "such"; "no"; "nor";
   "not"; "only"; "own"; "same"; "so"; "than"; "too"; "very"; "s"; "t";
   "can"; "will"; "just"; "don"; "don't"; "should"; "should've"; "now";
   "d"; "ll"; "m"; "o"; "re"; "ve"; "y"; "ain"; "aren"; "aren't";
   "couldn"; "couldn't"; "didn"; "didn't"; "doesn"; "doesn't"; "hadn";
   "hadn't"; "hasn"; "hasn't"; "haven"; "haven't"; "isn"; "isn't"; "ma";
   "mightn"; "mightn't"; "mustn"; "mustn't"; "needn"; "needn't"; "shan";
   "shan't"; "shouldn"; "shouldn't"; "wasn"; "wasn't"; "weren";
   "weren't"; "won"; "won't"; "wouldn"; "wouldn't"].

(** A lemmatizer with an empty morphological table: every token is
    unknown and passes through unchanged. *)
Definition base_form (token : string) : string := token.

Definition inst : Nltk :=
  {| word_tokenize := tokenize;
     stop_words := english;
     lemmatize := base_form |}.

End RefNltk.

(** * scikit-learn: [TfidfVectorizer] with default parameters *)

Module Sklearn.

(** [\w] on ASCII: letters, digits and the underscore. *)
Definition is_word_char (c : ascii) : bool :=
  let n := nat_of_ascii c in
  ((48 <=? n) && (n <=? 57)) || ((65 <=? n) && (n <=? 90)) ||
  ((97 <=? n) && (n <=? 122)) || (n =? 95).

(** A maximal run of word characters is a token when it has two
    characters or more (the default [token_pattern]). *)
Definition emit (run : string) : list string :=
  if 2 <=? String.length run then [run] else [].

Fixpoint word_runs (s : string) (run : string) : list string :=
  match s with
  | EmptyString => emit run
  | String c s' =>
      if is_word_char c then word_runs s' (run ++ String c EmptyString)
      else emit run ++ word_runs s' EmptyString
  end.

(** The analyzer: lowercase, then all matches of the token pattern. *)
Definition analyze (doc : string) : list string :=
  word_runs (PyStr.lower doc) EmptyString.

(** Number of occurrences of a term in a token list. *)
Definition count (t : string) (tokens : list string) : nat :=
  List.length (filter (String.eqb t) tokens).

(** Feature names: the distinct terms of all documents, sorted. *)
Fixpoint insert_term (t : string) (l : list string) : list string :=
  match l with
  | [] => [t]
  | u :: l' => if String.leb t u then t :: l else u :: insert_term t l'
  end.

Definition sort_terms (l : list string) : list string :=
  fold_right insert_term [] l.

Definition vocabulary (docs : list string) : list string :=
  sort_terms (nodup string_dec (List.concat (map analyze docs))).

(** Document frequency of a term. *)
Definition df (t : string) (docs : list string) : nat :=
  List.length (filter (fun d => in_set t (analyze d)) docs).

(** ** Term weights, in exact arithmetic *)

Local Open Scope R_scope.

(** Smoothed inverse document frequency: [ln ((1 + n) / (1 + df)) + 1]. *)
Definition idf (n_docs d_freq : nat) : R :=
  ln ((1 + INR n_docs) / (1 + INR d_freq)) + 1.

(** One row of the term-count matrix scaled by [idf]. *)
Definition tf_idf_row (vocab docs : list string) (doc : string) : list R :=
  map (fun t => INR (count t (analyze doc)) * idf (List.length docs) (df t docs))
      vocab.

Definition sum_sq (v : list R) : R :=
  fold_right (fun x acc => x * x + acc) 0 v.

(** Row-wise l2 normalization; a row whose squared norm is zero is left
    as it is. *)
Definition normalize (v : list R) : list R :=
  let s := sum_sq v in
  if Req_dec_T s 0 then v else map (fun x => x / sqrt s) v.

(** The row of a document in the TF-IDF matrix. *)
Definition tfidf_row (vocab docs : list string) (doc : string) : list R :=
  normalize (tf_idf_row vocab docs doc).

(** [TfidfVectorizer().fit_transform(docs)]: a matrix with one row per
    document, or [ValueError] when no document has a term. *)
Definition fit_transform (docs : list string) : result (list (list R)) :=
  let vocab := vocabulary docs in
  match vocab with
  | [] => Raise empty_vocabulary
  | _ :: _ => Ok (map (tfidf_row vocab docs) docs)
  end.

Definition dot (u v : list R) : R :=
  fold_right Rplus 0 (map (fun p => fst p * snd p) (combine u v)).

(** [cosine_similarity(X, Y)]: both arguments are normalized row by row,
    then every row of [X] is multiplied with every row of [Y]. *)
Definition cosine (x y : list R) : R := dot (normalize x) (normalize y).

Definition cosine_similarity (X Y : list (list R)) : list (list R) :=
  map (fun x => map (cosine x) Y) X.

End Sklearn.

(** * [match_resumes] *)

Record entry : Type := { name : string; score : R }.

Definition is_empty {A : Type} (l : list A) : bool :=
  match l with
  | [] => true
  | _ :: _ => false
  end.

(** [results.sort(key=lambda x: x["score"], reverse=True)]: Python's sort is
    stable, also with [reverse=True].  A stable sort has one possible
    result, so insertion from the right computes it: an entry moves behind
    the entries of strictly greater score only. *)
Fixpoint insert_desc (e : entry) (l : list entry) : list entry :=
  match l with
  | [] => [e]
  | x :: l' =>
      if Rlt_dec (score e) (score x) then x :: insert_desc e l' else e :: l
  end.

Definition sort_desc (l : list entry) : list entry :=
  fold_right insert_desc [] l.

(** The list comprehension over [range(len(resume_names))]. *)
Definition results (resume_names : list string) (similarity_scores : list R)
  : list entry :=
  map (fun i => {| name := nth i resume_names "";
                   score := nth i similarity_scores 0%R |})
      (seq 0 (List.length resume_names)).

Section Matcher.

Context {nltk : Nltk}.

(** Lines 29 to 46: preprocessing, vectorization and the similarity of
    the job row with every resume row. *)
Definition similarity_scores (resume_texts : list string) (job_text : string)
  : result (list R) :=
  let preprocessed_resumes := map preprocess_text resume_texts in
  let preprocessed_job := preprocess_text job_text in
  let all_texts := preprocessed_job :: preprocessed_resumes in
  tfidf_matrix <- Sklearn.fit_transform all_texts ;;
  let job_vector := firstn 1 tfidf_matrix in
  let resume_vectors := skipn 1 tfidf_matrix in
  Ok (nth 0 (Sklearn.cosine_similarity job_vector resume_vectors) []).

Definition match_resumes (resume_texts resume_names : list string)
  (job_text : string) : result (list entry) :=
  if is_empty resume_texts || is_empty resume_names then Ok []
  else if negb (List.length resume_texts =? List.length resume_names)
  then Raise length_mismatch
  else
    scores <- similarity_scores resume_texts job_text ;;
    Ok (sort_desc (results resume_names scores)).

(** The documents handed to the vectorizer, the job description first. *)
Definition corpus (resume_texts : list string) (job_text : string)
  : list string :=
  preprocess_text job_text :: map preprocess_text resume_texts.

(** The row of [text] in the TF-IDF matrix of one call. *)
Definition doc_row (resume_texts : list string) (job_text text : string)
  : list R :=
  Sklearn.tfidf_row (Sklearn.vocabulary (corpus resume_texts job_text))
                    (corpus resume_texts job_text) (preprocess_text text).

End Matcher.

(** The entries of [l] whose score is [s], in the order of [l]. *)
Definition with_score (s : R) (l : list entry) : list entry :=
  filter (fun e => if Req_dec_T (score e) s then true else false) l.

(** [a] may stand before [b] in a list sorted by descending score. *)
Definition score_ge (a b : entry) : Prop := (score b <= score a)%R.

(** * Term weights, pointwise

    The entry of a document's count-times-idf row at the column of term
    [t], and the factor by which [normalize] multiplies a row whose squared
    norm is [s]. *)
Definition weight (docs : list string) (doc t : string) : R :=
  (INR (Sklearn.count t (Sklearn.analyze doc))
   * Sklearn.idf (List.length docs) (Sklearn.df t docs))%R.

Definition unit_scale (s : R) : R :=
  if Req_dec_T s 0 then 1%R else (/ sqrt s)%R.

(** The sum of a real-valued function over the terms of a list. *)
Definition sum_over (f : string -> R) (l : list string) : R :=
  fold_right Rplus 0%R (map f l).

(** * [app.py]: the [/match] endpoint

    The body of a request is a JSON value as [request.get_json()] returns
    it: [None], a [bool], a number, a [str], a [list] or a [dict] (its
    items, with distinct keys).  Log messages are not modelled. *)

#[warnings="-register-all"]
Inductive json : Type :=
| JNull
| JBool (b : bool)
| JNum (q : Q)
| JStr (s : string)
| JList (items : list json)
| JDict (fields : list (string * json)).

(** [request]: [is_json] and the outcome of [get_json()], which is [None]
    here when the body cannot be parsed (Flask then raises [BadRequest],
    which is not a [ValueError]). *)
Record request : Type := { is_json : bool; get_json : option json }.

(** A response: the JSON body handed to [jsonify], and the status code. *)
Inductive payload : Type :=
| ErrorBody (error : string)
| ResultsBody (results : list entry) (total_matched : nat).

Definition response : Type := (payload * nat)%type.

(** What interrupts the [try] block: a [ValueError], or an exception of
    another class, named by [kind]. *)
Inductive raised : Type :=
| Value (e : exn)
| Other (kind : string).

Inductive outcome (A : Type) : Type :=
| Return (a : A)
| Throw (e : raised).
Arguments Return {A} a.
Arguments Throw {A} e.

Module Py.

(** Truth value of a JSON value in a condition. *)
Definition truthy (v : json) : bool :=
  match v with
  | JNull => false
  | JBool b => b
  | JNum q => negb (Qeq_bool q 0)
  | JStr s => negb (String.eqb s "")
  | JList items => negb (is_empty items)
  | JDict fields => negb (is_empty fields)
  end.

(** [d[key]] and [d.get(key)] on the items of a [dict]. *)
Fixpoint lookup (key : string) (fields : list (string * json)) : option json :=
  match fields with
  | [] => None
  | (k, v) :: rest => if String.eqb key k then Some v else lookup key rest
  end.

Definition is_str (key : string) (v : json) : bool :=
  match v with
  | JStr s => String.eqb key s
  | _ => false
  end.

(** [key in v] for a string [key]: a key test on a [dict], an element
    test on a [list], a substring test on a [str], a [TypeError] on
    anything else. *)
Definition contains (v : json) (key : string) : outcome bool :=
  match v with
  | JDict fields =>
      Return (match lookup key fields with Some _ => true | None => false end)
  | JList items => Return (existsb (is_str key) items)
  | JStr s => Return (PyStr.contains s key)
  | _ => Throw (Other "TypeError")
  end.

(** [v.get(key, default)]: only a [dict] has the method. *)
Definition get (v : json) (key : string) (default : json) : outcome json :=
  match v with
  | JDict fields =>
      Return (match lookup key fields with Some x => x | None => default end)
  | _ => Throw (Other "AttributeError")
  end.

(** The characters [str.strip()] removes, among the ASCII ones. *)
Definition is_space (c : ascii) : bool :=
  let n := nat_of_ascii c in
  ((9 <=? n) && (n <=? 13)) || ((28 <=? n) && (n <=? 32)).

Fixpoint lstrip (s : string) : string :=
  match s with
  | EmptyString => EmptyString
  | String c s' => if is_space c then lstrip s' else s
  end.

Fixpoint rstrip (s : string) : string :=
  match s with
  | EmptyString => EmptyString
  | String c s' =>
      match rstrip s' with
      | EmptyString => if is_space c then EmptyString else String c EmptyString
      | r => String c r
      end
  end.

Definition strip (s : string) : string := rstrip (lstrip s).

(** The decimal digits of an index, as an f-string prints it. *)
Definition str_of_nat (n : nat) : string :=
  NilEmpty.string_of_uint (Nat.to_uint n).

End Py.

Definition bind_outcome {A B : Type} (o : outcome A) (k : A -> outcome B)
  : outcome B :=
  match o with
  | Return a => k a
  | Throw e => Throw e
  end.

Definition bad_request (error : string) : response := (ErrorBody error, 400).

Section App.

Context {nltk : Nltk}.

(** [str(v)] for a value that is not a [str]; for a [str] it is the
    value itself. *)
Variable repr : json -> string.

Definition str (v : json) : string :=
  match v with
  | JStr s => s
  | _ => repr v
  end.

(** The body of the loop for the resume at index [idx]: the message of
    an early [return], or the name and the content it appends. *)
Definition check_resume (idx : nat) (resume : json)
  : string + (string * string) :=
  match resume with
  | JDict fields =>
      match Py.lookup "name" fields with
      | None =>
          inl (String.append "Resume at index "
                 (String.append (Py.str_of_nat idx) " is missing 'name' field"))
      | Some name_value =>
          match Py.lookup "content" fields with
          | None =>
              inl (String.append "Resume at index "
                     (String.append (Py.str_of_nat idx)
                                    " is missing 'content' field"))
          | Some content_value => inr (str name_value, str content_value)
          end
      end
  | _ =>
      inl (String.append "Resume at index "
             (String.append (Py.str_of_nat idx) " must be an object"))
  end.

(** The loop over [enumerate(resumes)]: either the response of an early
    [return], or the two lists it has filled. *)
Fixpoint extract (idx : nat) (resumes : list json)
  (resume_texts resume_names : list string)
  : response + (list string * list string) :=
  match resumes with
  | [] => inr (resume_texts, resume_names)
  | resume :: rest =>
      match check_resume idx resume with
      | inl error => inl (bad_request error)
      | inr (name_value, content_value) =>
          extract (S idx) rest
                  (List.app resume_texts [content_value])
                  (List.app resume_names [name_value])
      end
  end.

(** The name and the content the loop appends for a resume it accepts. *)
Definition read_resume (resume : json) : option (string * string) :=
  match resume with
  | JDict fields =>
      match Py.lookup "name" fields, Py.lookup "content" fields with
      | Some name_value, Some content_value =>
          Some (str name_value, str content_value)
      | _, _ => None
      end
  | _ => None
  end.

(** The [try] block of [match]. *)
Definition match_body (req : request) : outcome response :=
  if negb (is_json req)
  then Return (bad_request "Content-Type must be application/json")
  else
    match get_json req with
    | None => Throw (Other "BadRequest")
    | Some data =>
        if negb (Py.truthy data)
        then Return (bad_request "Request body is required")
        else
          bind_outcome (Py.contains data "resumes") (fun has_resumes =>
          if negb has_resumes
          then Return (bad_request "Missing required field: 'resumes'")
          else
            bind_outcome (Py.contains data "job_description") (fun has_job =>
            if negb has_job
            then Return (bad_request "Missing required field: 'job_description'")
            else
              bind_outcome (Py.get data "resumes" (JList [])) (fun resumes =>
              bind_outcome (Py.get data "job_description" (JStr "")) (fun job_description =>
              match resumes with
              | JList items =>
                  if (List.length items =? 0)%nat
                  then Return (bad_request "'resumes' list cannot be empty")
                  else
                    match job_description with
                    | JStr job =>
                        if String.eqb (Py.strip job) ""
                        then Return (bad_request
                                       "'job_description' must be a non-empty string")
                        else
                          match extract 0 items [] [] with
                          | inl early => Return early
                          | inr (resume_texts, resume_names) =>
                              match match_resumes resume_texts resume_names job with
                              | Ok results =>
                                  Return (ResultsBody results (List.length results), 200)
                              | Raise e => Throw (Value e)
                              end
                          end
                    | _ => Return (bad_request
                                     "'job_description' must be a non-empty string")
                    end
              | _ => Return (bad_request "'resumes' must be a list")
              end))))
    end.

(** [match]: the [try] block with its two handlers.  ([match] is a
    keyword, hence the name.) *)
Definition match_endpoint (req : request) : response :=
  match match_body req with
  | Return resp => resp
  | Throw (Value (ValueError msg)) => (ErrorBody msg, 400)
  | Throw (Other _) => (ErrorBody "An internal server error occurred", 500)
  end.

End App.

(** A resume the loop of [match] accepts: an object with the two keys. *)
Definition valid_resume (v : json) : bool :=
  match v with
  | JDict fields =>
      match Py.lookup "name" fields, Py.lookup "content" fields with
      | Some _, Some _ => true
      | _, _ => false
      end
  | _ => false
  end.

(** * The scores as the program computes them: binary64

    [Module Sklearn] above gives the weights and similarities their exact
    real values.  The program computes them in 64-bit floating point, and
    the result of each operation is rounded.  [Module F64] follows the
    operations of scikit-learn in their order: the counts are converted to
    floats and multiplied by the idf; a row is normalized by accumulating
    the squares from the first column to the last, taking the square root
    and dividing every entry; [cosine_similarity] normalizes both rows
    again and accumulates the products from the first column to the last.
    Entries that are zero are kept in the rows; adding a zero product
    leaves an accumulator unchanged, as skipping it in a sparse row does.

    The logarithm of the idf comes from NumPy and is an interface. *)

Class Numpy : Type := {
  log : PrimFloat.float -> PrimFloat.float
}.

Module RefNumpy.

Import PrimFloat.

(** A logarithm that is given at [1.0] only, where it is [0.0] as with
    every implementation; this is the value the idf of a term takes its
    logarithm of when the term occurs in every document.  Other arguments
    are not modelled and give [nan]. *)
Definition log_at_one (x : float) : float :=
  if PrimFloat.eqb x 1%float then 0%float else nan.

Definition inst : Numpy := {| log := log_at_one |}.

End RefNumpy.

Module F64.

Import PrimFloat.

Record entry : Type := { name : string; score : float }.

(** [1.0] and the float next above it, which prints
    [1.0000000000000002]. *)
Definition one : float := 1%float.
Definition one_plus_ulp : float := 0x1.0000000000001p+0%float.

(** An integer count as a float. *)
Definition of_count (n : nat) : float :=
  PrimFloat.of_uint63 (Uint63.of_Z (Z.of_nat n)).

Definition sum_sq (v : list float) : float :=
  fold_left (fun acc x => (acc + x * x)%float) v 0%float.

Definition normalize (v : list float) : list float :=
  let s := sum_sq v in
  if PrimFloat.eqb s 0%float then v
  else let norm := PrimFloat.sqrt s in map (fun x => (x / norm)%float) v.

Definition dot (u v : list float) : float :=
  fold_left (fun acc p => (acc + fst p * snd p)%float) (combine u v) 0%float.

Definition cosine (x y : list float) : float := dot (normalize x) (normalize y).

Definition cosine_similarity (X Y : list (list float)) : list (list float) :=
  map (fun x => map (cosine x) Y) X.

Fixpoint insert_desc (e : entry) (l : list entry) : list entry :=
  match l with
  | [] => [e]
  | x :: l' =>
      if PrimFloat.ltb (score e) (score x) then x :: insert_desc e l' else e :: l
  end.

Definition sort_desc (l : list entry) : list entry :=
  fold_right insert_desc [] l.

Definition results (resume_names : list string) (similarity_scores : list float)
  : list entry :=
  map (fun i => {| name := nth i resume_names "";
                   score := nth i similarity_scores 0%float |})
      (seq 0 (List.length resume_names)).

Section Pipeline.

Context {nltk : Nltk} {numpy : Numpy}.

Definition idf (n_docs d_freq : nat) : float :=
  (log (of_count (S n_docs) / of_count (S d_freq)) + 1)%float.

Definition tf_idf_row (vocab docs : list string) (doc : string) : list float :=
  map (fun t => (of_count (Sklearn.count t (Sklearn.analyze doc))
                 * idf (List.length docs) (Sklearn.df t docs))%float)
      vocab.

Definition tfidf_row (vocab docs : list string) (doc : string) : list float :=
  normalize (tf_idf_row vocab docs doc).

Definition fit_transform (docs : list string) : result (list (list float)) :=
  let vocab := Sklearn.vocabulary docs in
  match vocab with
  | [] => Raise empty_vocabulary
  | _ :: _ => Ok (map (tfidf_row vocab docs) docs)
  end.

Definition similarity_scores (resume_texts : list string) (job_text : string)
  : result (list float) :=
  let preprocessed_resumes := map preprocess_text resume_texts in
  let preprocessed_job := preprocess_text job_text in
  let all_texts := preprocessed_job :: preprocessed_resumes in
  tfidf_matrix <- fit_transform all_texts ;;
  let job_vector := firstn 1 tfidf_matrix in
  let resume_vectors := skipn 1 tfidf_matrix in
  Ok (nth 0 (cosine_similarity job_vector resume_vectors) []).

Definition match_resumes (resume_texts resume_names : list string)
  (job_text : string) : result (list entry) :=
  if is_empty resume_texts || is_empty resume_names then Ok []
  else if negb (List.length resume_texts =? List.length resume_names)
  then Raise length_mismatch
  else
    scores <- similarity_scores resume_texts job_text ;;
    Ok (sort_desc (results resume_names scores)).

End Pipeline.

End F64.

(** * Evaluation on small inputs *)

Example lower_mixed : PyStr.lower "The Engineer, and the Manager." = "the engineer, and the manager.".
Proof. reflexivity. Qed.

Example preprocess_ref_sentence :
  @preprocess_text RefNltk.inst "The Engineer, and the Manager." = "engineer manager".
Proof. vm_compute. reflexivity. Qed.

Example vocabulary_two_docs :
  Sklearn.vocabulary ["python developer"; "a java developer x"] = ["developer"; "java"; "python"].
Proof. vm_compute. reflexivity. Qed.

Example tokens_need_two_chars : Sklearn.analyze "x y python 3 c_" = ["python"; "c_"].
Proof. vm_compute. reflexivity. Qed.

Example punctuation_is_substring_test :
  PyStr.contains PyStr.punctuation "," = true /\
  PyStr.contains PyStr.punctuation "()" = true /\
  PyStr.contains PyStr.punctuation "..." = false /\
  PyStr.contains PyStr.punctuation "" = true.
Proof. repeat split; reflexivity. Qed.

(** * The guards of [match_resumes] *)

Section Guards.

Context {nltk : Nltk}.

Lemma is_empty_false {A : Type} (l : list A) : l <> [] -> is_empty l = false.
Proof. destruct l; [congruence | reflexivity]. Qed.

(** Past the two guards the result is the sorted list of scored entries. *)
Lemma match_resumes_valid (texts names : list string) (job : string) :
  texts <> [] -> List.length texts = List.length names ->
  match_resumes texts names job =
  (scores <- similarity_scores texts job ;;
   Ok (sort_desc (results names scores))).
Proof.
  intros Hne Hlen. unfold match_resumes.
  assert (Hn : names <> []) by (destruct names, texts; simpl in *; congruence).
  rewrite (is_empty_false texts Hne), (is_empty_false names Hn). simpl.
  apply Nat.eqb_eq in Hlen. rewrite Hlen. reflexivity.
Qed.

End Guards.

(** C9: called with an empty candidate list (no texts and no names),
    [match_resumes] returns the empty result list and does not raise. *)
Theorem C9_empty_candidates_return_empty :
  forall (nltk : Nltk) (job_text : string),
    match_resumes [] [] job_text = Ok [].
Proof. intros nltk job_text. reflexivity. Qed.

(** C10: when exactly one of [resume_texts] and [resume_names] is empty,
    the emptiness test comes first: the call returns the empty list and
    the length mismatch is not raised. *)
Theorem C10_one_empty_list_returns_empty :
  forall (nltk : Nltk) (texts names : list string) (job_text : string),
    (texts = [] /\ names <> []) \/ (texts <> [] /\ names = []) ->
    List.length texts <> List.length names /\
    match_resumes texts names job_text = Ok [].
Proof.
  intros nltk texts names job_text [[Ht Hn] | [Ht Hn]]; subst.
  - split; [destruct names; simpl; congruence | reflexivity].
  - split; [destruct texts; simpl; congruence |].
    unfold match_resumes. rewrite (is_empty_false texts Ht). reflexivity.
Qed.

Lemma C10_witness :
  (([] : list string) = [] /\ ["cv.pdf"] <> []) /\
  List.length ([] : list string) <> List.length ["cv.pdf"] /\
  @match_resumes RefNltk.inst [] ["cv.pdf"] "python developer" = Ok [].
Proof.
  split; [split; [reflexivity | discriminate] |].
  apply (C10_one_empty_list_returns_empty RefNltk.inst [] ["cv.pdf"] "python developer").
  left. split; [reflexivity | discriminate].
Defined.

(** C2, as stated, fails: two lists of different lengths, one of them
    empty, are answered with the empty list. *)
Lemma C2_counterexample :
  List.length ([] : list string) <> List.length ["cv.pdf"] /\
  @match_resumes RefNltk.inst [] ["cv.pdf"] "python developer" <> Raise length_mismatch.
Proof. split; [simpl; lia | discriminate]. Qed.

(** C2 (amended): for two non-empty lists of different lengths
    [match_resumes] raises the length-mismatch error.  The result is the
    same for every tokenizer, stop word set, lemmatizer and job text: the
    error is raised before any document is processed. *)
Theorem C2_nonempty_length_mismatch_raises :
  forall (nltk : Nltk) (texts names : list string) (job_text : string),
    texts <> [] -> names <> [] ->
    List.length texts <> List.length names ->
    match_resumes texts names job_text = Raise length_mismatch.
Proof.
  intros nltk texts names job_text Ht Hn Hlen. unfold match_resumes.
  rewrite (is_empty_false texts Ht), (is_empty_false names Hn). simpl.
  apply Nat.eqb_neq in Hlen. rewrite Hlen. reflexivity.
Qed.

Lemma C2_witness :
  List.length ["first text"; "second text"] <> List.length ["cv.pdf"] /\
  @match_resumes RefNltk.inst ["first text"; "second text"] ["cv.pdf"] "python developer"
  = Raise length_mismatch.
Proof.
  split; [simpl; lia |].
  apply C2_nonempty_length_mismatch_raises; [discriminate | discriminate | simpl; lia].
Defined.

(** C8: lowercasing, the punctuation test and the stop word test make
    the two sentences normalize to the same text, the words [engineer] and
    [manager] in this order.  What the tokenizer, the stop word set and the
    lemmatizer do on these two sentences is stated as hypotheses. *)
Theorem C8_stopword_punctuation_invariance :
  forall (nltk : Nltk),
    word_tokenize "the engineer, and the manager."
      = ["the"; "engineer"; ","; "and"; "the"; "manager"; "."] ->
    word_tokenize "engineer manager" = ["engineer"; "manager"] ->
    in_set "the" stop_words = true ->
    in_set "and" stop_words = true ->
    in_set "engineer" stop_words = false ->
    in_set "manager" stop_words = false ->
    lemmatize "engineer" = "engineer" ->
    lemmatize "manager" = "manager" ->
    preprocess_text "The Engineer, and the Manager." = preprocess_text "engineer manager" /\
    preprocess_text "engineer manager" = "engineer manager".
Proof.
  intros nltk Htok1 Htok2 Hthe Hand Heng Hman Hl1 Hl2.
  assert (H2 : preprocess_text "engineer manager" = "engineer manager").
  { unfold preprocess_text.
    change (PyStr.lower "engineer manager") with "engineer manager".
    rewrite Htok2. unfold process_tokens, keep_token.
    rewrite Heng, Hman, Hl1, Hl2. reflexivity. }
  split; [| exact H2]. rewrite H2.
  unfold preprocess_text.
  change (PyStr.lower "The Engineer, and the Manager.")
    with "the engineer, and the manager.".
  rewrite Htok1. unfold process_tokens, keep_token.
  rewrite Hthe, Hand, Heng, Hman, Hl1, Hl2. reflexivity.
Qed.

Lemma C8_witness :
  @preprocess_text RefNltk.inst "The Engineer, and the Manager."
  = @preprocess_text RefNltk.inst "engineer manager" /\
  @preprocess_text RefNltk.inst "engineer manager" = "engineer manager".
Proof.
  apply (C8_stopword_punctuation_invariance RefNltk.inst); vm_compute; reflexivity.
Defined.

(** * The vocabulary *)

Section Vocabulary.

Import Sklearn.

Lemma insert_term_In (t u : string) (l : list string) :
  In u (insert_term t l) <-> u = t \/ In u l.
Proof.
  induction l as [| v l IH]; simpl.
  - intuition congruence.
  - destruct (String.leb t v); simpl; [intuition congruence |].
    rewrite IH. intuition congruence.
Qed.

Lemma sort_terms_In (u : string) (l : list string) :
  In u (sort_terms l) <-> In u l.
Proof.
  induction l as [| t l IH]; simpl; [tauto |].
  rewrite insert_term_In, IH. intuition congruence.
Qed.

Lemma vocabulary_In (docs : list string) (t : string) :
  In t (vocabulary docs) <-> exists d, In d docs /\ In t (analyze d).
Proof.
  unfold vocabulary. rewrite sort_terms_In, nodup_In, in_concat. split.
  - intros [ts [Hts Ht]]. apply in_map_iff in Hts as [d [Hd Hin]].
    subst ts. now exists d.
  - intros [d [Hd Ht]]. exists (analyze d). split; [now apply in_map | exact Ht].
Qed.

Lemma vocabulary_nil (docs : list string) :
  Forall (fun d => analyze d = []) docs -> vocabulary docs = [].
Proof.
  intros Hall. destruct (vocabulary docs) as [| t v] eqn:E; [reflexivity |].
  assert (Hin : In t (vocabulary docs)) by (rewrite E; now left).
  apply vocabulary_In in Hin as [d [Hd Ht]].
  rewrite Forall_forall in Hall. rewrite (Hall d Hd) in Ht. contradiction.
Qed.

Lemma vocabulary_not_nil (docs : list string) (d : string) :
  In d docs -> analyze d <> [] -> vocabulary docs <> [].
Proof.
  intros Hd Hne E. destruct (analyze d) as [| t ts] eqn:Ea; [congruence |].
  assert (Hin : In t (vocabulary docs)).
  { apply vocabulary_In. exists d. split; [exact Hd | rewrite Ea; now left]. }
  rewrite E in Hin. contradiction.
Qed.

Lemma fit_transform_empty (docs : list string) :
  Forall (fun d => analyze d = []) docs ->
  fit_transform docs = Raise empty_vocabulary.
Proof. intros H. unfold fit_transform. now rewrite (vocabulary_nil docs H). Qed.

Lemma fit_transform_rows (docs : list string) :
  vocabulary docs <> [] ->
  fit_transform docs = Ok (map (tfidf_row (vocabulary docs) docs) docs).
Proof.
  intros H. unfold fit_transform.
  destruct (vocabulary docs); [congruence | reflexivity].
Qed.

End Vocabulary.

(** C1, as stated, fails: with one candidate and every text empty the
    call raises and returns no entry. *)
Lemma C1_counterexample :
  @preprocess_text RefNltk.inst "" = "" /\
  @match_resumes RefNltk.inst [""] ["cv.pdf"] "" = Raise empty_vocabulary /\
  ~ (exists res, @match_resumes RefNltk.inst [""] ["cv.pdf"] "" = Ok res /\
                 List.length res = 1 /\ Forall (fun e => score e = 0%R) res).
Proof.
  assert (H : @match_resumes RefNltk.inst [""] ["cv.pdf"] "" = Raise empty_vocabulary)
    by (vm_compute; reflexivity).
  split; [reflexivity |]. split; [exact H |].
  intros [res [Hres _]]. rewrite H in Hres. discriminate.
Qed.

(** C1 (amended): when the candidate list is not empty, the names match
    it in length and every document, the query included, normalizes to the
    empty text, the vectorizer finds no term and [match_resumes] fails with
    its [ValueError]; no result entry is returned. *)
Theorem C1_empty_vocabulary_raises :
  forall (nltk : Nltk) (texts names : list string) (job_text : string),
    texts <> [] -> List.length texts = List.length names ->
    Forall (fun d => preprocess_text d = "") (job_text :: texts) ->
    match_resumes texts names job_text = Raise empty_vocabulary.
Proof.
  intros nltk texts names job_text Hne Hlen Hall.
  rewrite (match_resumes_valid texts names job_text Hne Hlen).
  unfold similarity_scores.
  rewrite fit_transform_empty; [reflexivity |].
  change (preprocess_text job_text :: map preprocess_text texts)
    with (map preprocess_text (job_text :: texts)).
  apply Forall_map. eapply Forall_impl; [| exact Hall].
  intros d Hd. simpl in Hd. rewrite Hd. reflexivity.
Qed.

Lemma C1_witness :
  Forall (fun d => @preprocess_text RefNltk.inst d = "") ["the"; ""; "and the"; "."] /\
  @match_resumes RefNltk.inst [""; "and the"; "."] ["a.pdf"; "b.pdf"; "c.pdf"] "the"
  = Raise empty_vocabulary.
Proof.
  assert (H : Forall (fun d => @preprocess_text RefNltk.inst d = "")
                     ["the"; ""; "and the"; "."])
    by (repeat constructor; vm_compute; reflexivity).
  split; [exact H |].
  apply C1_empty_vocabulary_raises; [discriminate | reflexivity | exact H].
Defined.

(** * The stable descending sort *)

Section Sorting.

Lemma insert_desc_perm (e : entry) (l : list entry) :
  Permutation (e :: l) (insert_desc e l).
Proof.
  induction l as [| x l IH]; simpl; [reflexivity |].
  destruct (Rlt_dec (score e) (score x)); [| reflexivity].
  rewrite perm_swap. now apply perm_skip.
Qed.

Lemma sort_desc_perm (l : list entry) : Permutation l (sort_desc l).
Proof.
  induction l as [| e l IH]; simpl; [constructor |].
  rewrite <- insert_desc_perm. now apply perm_skip.
Qed.

Lemma sort_desc_length (l : list entry) :
  List.length (sort_desc l) = List.length l.
Proof. symmetry. apply Permutation_length, sort_desc_perm. Qed.

Lemma insert_desc_sorted (e : entry) (l : list entry) :
  StronglySorted score_ge l -> StronglySorted score_ge (insert_desc e l).
Proof.
  induction 1 as [| x l Hs IH Hx]; simpl.
  - repeat constructor.
  - destruct (Rlt_dec (score e) (score x)) as [Hlt | Hge].
    + constructor; [exact IH |].
      eapply Permutation_Forall; [apply insert_desc_perm |].
      constructor; [unfold score_ge; lra | exact Hx].
    + constructor; [now constructor |].
      constructor; [unfold score_ge; lra |].
      eapply Forall_impl; [| exact Hx].
      unfold score_ge. intros y Hy. lra.
Qed.

Lemma sort_desc_sorted (l : list entry) : StronglySorted score_ge (sort_desc l).
Proof.
  induction l as [| e l IH]; simpl; [constructor |].
  now apply insert_desc_sorted.
Qed.

(** Insertion never moves an entry across one of the same score. *)
Lemma with_score_insert (s : R) (e : entry) (l : list entry) :
  with_score s (insert_desc e l) = with_score s (e :: l).
Proof.
  induction l as [| x l IH]; [reflexivity |].
  simpl. destruct (Rlt_dec (score e) (score x)) as [Hlt | Hge]; [| reflexivity].
  unfold with_score in *. simpl in *. rewrite IH.
  destruct (Req_dec_T (score x) s), (Req_dec_T (score e) s); try reflexivity.
  exfalso. lra.
Qed.

Lemma sort_desc_stable (s : R) (l : list entry) :
  with_score s (sort_desc l) = with_score s l.
Proof.
  induction l as [| e l IH]; [reflexivity |].
  simpl. rewrite with_score_insert. unfold with_score in *. simpl.
  now rewrite IH.
Qed.

End Sorting.

(** * The entries before sorting *)

Section Results.

Lemma map_nth_seq_id {A : Type} (d : A) (l : list A) :
  map (fun i => nth i l d) (seq 0 (List.length l)) = l.
Proof.
  induction l as [| a l IH]; [reflexivity |].
  simpl. f_equal. rewrite <- seq_shift, map_map. exact IH.
Qed.

Lemma results_length (names : list string) (scores : list R) :
  List.length (results names scores) = List.length names.
Proof. unfold results. now rewrite length_map, length_seq. Qed.

Lemma results_names (names : list string) (scores : list R) :
  map name (results names scores) = names.
Proof. unfold results. rewrite map_map. simpl. apply map_nth_seq_id. Qed.

Lemma results_scores (names : list string) (scores : list R) :
  List.length scores = List.length names ->
  map score (results names scores) = scores.
Proof.
  intros H. unfold results. rewrite map_map. simpl. rewrite <- H.
  apply map_nth_seq_id.
Qed.

Lemma results_nth (names : list string) (scores : list R) (i : nat) :
  i < List.length names ->
  nth_error (results names scores) i
  = Some {| name := nth i names ""; score := nth i scores 0%R |}.
Proof.
  intros Hi. unfold results.
  rewrite nth_error_map, nth_error_seq.
  destruct (Nat.ltb_spec i (List.length names)); [reflexivity | lia].
Qed.

End Results.

(** * Rows as real vectors *)

Section Vectors.

Import Sklearn.
Local Open Scope R_scope.

Lemma sum_sq_nonneg (v : list R) : 0 <= sum_sq v.
Proof. induction v as [| x v IH]; simpl; [lra | nra]. Qed.

Lemma sum_sq_zero (v : list R) : sum_sq v = 0 -> Forall (fun x => x = 0) v.
Proof.
  induction v as [| x v IH]; simpl; intros H; [constructor |].
  pose proof (sum_sq_nonneg v). constructor; [nra | apply IH; nra].
Qed.

Lemma zeros_sum_sq (v : list R) : Forall (fun x => x = 0) v -> sum_sq v = 0.
Proof. induction 1 as [| x v Hx _ IH]; simpl; [reflexivity | subst; lra]. Qed.

Lemma sum_sq_scale (c : R) (v : list R) :
  sum_sq (map (fun x => x / c) v) = sum_sq v / (c * c).
Proof.
  destruct (Req_dec_T c 0) as [-> | Hc].
  - assert (E : forall l, sum_sq (map (fun x => x / 0) l) = 0).
    { induction l as [| x l IH]; simpl; [reflexivity |].
      rewrite IH. unfold Rdiv. rewrite Rinv_0. lra. }
    rewrite E. unfold Rdiv. rewrite Rmult_0_l, Rinv_0. lra.
  - induction v as [| x v IH]; simpl.
    + unfold Rdiv. lra.
    + rewrite IH. field. exact Hc.
Qed.

(** In exact arithmetic a normalized row has squared norm [1], unless
    the row is zero. *)
Lemma sum_sq_normalize (v : list R) :
  sum_sq v <> 0 -> sum_sq (normalize v) = 1.
Proof.
  intros Hv. unfold normalize.
  destruct (Req_dec_T (sum_sq v) 0) as [E | _]; [contradiction |].
  rewrite sum_sq_scale, sqrt_sqrt by apply sum_sq_nonneg.
  now field.
Qed.

Lemma normalize_zero (v : list R) : sum_sq v = 0 -> normalize v = v.
Proof.
  intros Hv. unfold normalize.
  destruct (Req_dec_T (sum_sq v) 0); [reflexivity | contradiction].
Qed.

Lemma sum_sq_normalize_le (v : list R) : sum_sq (normalize v) <= 1.
Proof.
  destruct (Req_dec_T (sum_sq v) 0) as [E | N].
  - rewrite (normalize_zero v E), E. lra.
  - rewrite (sum_sq_normalize v N). lra.
Qed.

Lemma normalize_nonneg (v : list R) :
  Forall (fun x => 0 <= x) v -> Forall (fun x => 0 <= x) (normalize v).
Proof.
  intros Hv. unfold normalize.
  destruct (Req_dec_T (sum_sq v) 0) as [E | N]; [exact Hv |].
  apply Forall_map. eapply Forall_impl; [| exact Hv].
  intros x Hx. simpl.
  assert (0 < sqrt (sum_sq v)).
  { apply sqrt_lt_R0. pose proof (sum_sq_nonneg v). lra. }
  apply Rmult_le_pos; [exact Hx |].
  left. now apply Rinv_0_lt_compat.
Qed.

Lemma dot_nonneg (u v : list R) :
  Forall (fun x => 0 <= x) u -> Forall (fun x => 0 <= x) v -> 0 <= dot u v.
Proof.
  intros Hu. revert v.
  induction Hu as [| x u Hx _ IH]; intros v Hv; [unfold dot; simpl; lra |].
  destruct Hv as [| y v Hy Hv]; [unfold dot; simpl; lra |].
  specialize (IH v Hv). unfold dot in *. simpl. nra.
Qed.

(** The product of two rows is at most the mean of their squared norms. *)
Lemma dot_le_mean (u v : list R) : dot u v <= (sum_sq u + sum_sq v) / 2.
Proof.
  revert v. induction u as [| x u IH]; intros v.
  - unfold dot. simpl. pose proof (sum_sq_nonneg v). lra.
  - destruct v as [| y v].
    + pose proof (sum_sq_nonneg u). unfold dot. simpl. nra.
    + specialize (IH v). unfold dot in *. simpl in *.
      fold (sum_sq u) (sum_sq v) in *.
      pose proof (Rle_0_sqr (x - y)) as Hsq. unfold Rsqr in Hsq. lra.
Qed.



Lemma dot_zero_r (u v : list R) : Forall (fun x => x = 0) v -> dot u v = 0.
Proof.
  intros Hv. revert u.
  induction Hv as [| y v Hy _ IH]; intros u.
  - destruct u; reflexivity.
  - destruct u as [| x u]; [reflexivity |].
    specialize (IH u). unfold dot in *. simpl. subst. lra.
Qed.

(** In exact arithmetic the similarity of two rows with entries that are
    not negative lies between [0] and [1]. *)
Lemma cosine_bounds (x y : list R) :
  Forall (fun a => 0 <= a) x -> Forall (fun a => 0 <= a) y ->
  0 <= cosine x y <= 1.
Proof.
  intros Hx Hy. unfold cosine. split.
  - apply dot_nonneg; now apply normalize_nonneg.
  - pose proof (dot_le_mean (normalize x) (normalize y)).
    pose proof (sum_sq_normalize_le x). pose proof (sum_sq_normalize_le y). lra.
Qed.



Lemma cosine_zero_r (x y : list R) : sum_sq y = 0 -> cosine x y = 0.
Proof.
  intros Hy. unfold cosine. rewrite (normalize_zero y Hy).
  apply dot_zero_r. now apply sum_sq_zero.
Qed.

End Vectors.

(** * The TF-IDF weights *)

Section Weights.

Import Sklearn.
Local Open Scope R_scope.

Lemma df_le (t : string) (docs : list string) :
  (df t docs <= List.length docs)%nat.
Proof.
  unfold df. induction docs as [| d docs IH]; simpl; [lia |].
  destruct (in_set t (analyze d)); simpl; lia.
Qed.

(** A term that occurs in no more documents than there are has an
    inverse document frequency of at least [1]. *)
Lemma idf_ge_1 (n d : nat) : (d <= n)%nat -> 1 <= idf n d.
Proof.
  intros Hdn. unfold idf.
  assert (Hd : 0 < 1 + INR d) by (pose proof (pos_INR d); lra).
  assert (Hq : 1 <= (1 + INR n) / (1 + INR d)).
  { apply le_INR in Hdn.
    apply (Rmult_le_reg_r (1 + INR d)); [exact Hd |].
    unfold Rdiv. rewrite Rmult_assoc, Rinv_l by lra. lra. }
  destruct (Rle_lt_or_eq_dec _ _ Hq) as [Hlt | Heq].
  - pose proof (ln_increasing 1 _ Rlt_0_1 Hlt) as Hln. rewrite ln_1 in Hln. lra.
  - rewrite <- Heq, ln_1. lra.
Qed.

Lemma idf_pos (t : string) (docs : list string) :
  0 < idf (List.length docs) (df t docs).
Proof. pose proof (idf_ge_1 _ _ (df_le t docs)). lra. Qed.

Lemma tf_idf_row_nonneg (vocab docs : list string) (doc : string) :
  Forall (fun x => 0 <= x) (tf_idf_row vocab docs doc).
Proof.
  unfold tf_idf_row. apply Forall_map, Forall_forall. intros t _.
  apply Rmult_le_pos; [apply pos_INR | left; apply idf_pos].
Qed.

Lemma tfidf_row_nonneg (vocab docs : list string) (doc : string) :
  Forall (fun x => 0 <= x) (tfidf_row vocab docs doc).
Proof. apply normalize_nonneg, tf_idf_row_nonneg. Qed.

(** A document without terms has the zero row. *)
Lemma tf_idf_row_no_term (vocab docs : list string) (doc : string) :
  analyze doc = [] -> Forall (fun x => x = 0) (tf_idf_row vocab docs doc).
Proof.
  intros Hd. unfold tf_idf_row. apply Forall_map, Forall_forall. intros t _.
  rewrite Hd. simpl. lra.
Qed.

Lemma tfidf_row_no_term (vocab docs : list string) (doc : string) :
  analyze doc = [] -> sum_sq (tfidf_row vocab docs doc) = 0.
Proof.
  intros Hd. pose proof (tf_idf_row_no_term vocab docs doc Hd) as Hz.
  unfold tfidf_row. rewrite (normalize_zero _ (zeros_sum_sq _ Hz)).
  now apply zeros_sum_sq.
Qed.

Lemma count_pos (t : string) (tokens : list string) :
  In t tokens -> (1 <= count t tokens)%nat.
Proof.
  unfold count. induction tokens as [| u tokens IH]; simpl; [tauto |].
  intros [-> | Hin].
  - rewrite String.eqb_refl. simpl. lia.
  - destruct (String.eqb t u); simpl; [lia | now apply IH].
Qed.




End Weights.

(** * The scores of one call *)

Section Scores.

Context {nltk : Nltk}.
Import Sklearn.
Local Open Scope R_scope.

Lemma similarity_scores_ok (texts : list string) (job : string) :
  vocabulary (corpus texts job) <> [] ->
  similarity_scores texts job
  = Ok (map (fun t => cosine (doc_row texts job job) (doc_row texts job t)) texts).
Proof.
  intros Hv. unfold similarity_scores. fold (corpus texts job).
  rewrite (fit_transform_rows _ Hv). unfold corpus at 3. simpl.
  rewrite !map_map. reflexivity.
Qed.

Lemma similarity_scores_inv (texts : list string) (job : string) (scores : list R) :
  similarity_scores texts job = Ok scores ->
  vocabulary (corpus texts job) <> [] /\
  scores = map (fun t => cosine (doc_row texts job job) (doc_row texts job t)) texts.
Proof.
  intros H.
  assert (Hv : vocabulary (corpus texts job) <> []).
  { intros E. unfold similarity_scores in H. fold (corpus texts job) in H.
    unfold fit_transform in H. rewrite E in H. discriminate. }
  split; [exact Hv |].
  rewrite (similarity_scores_ok texts job Hv) in H. congruence.
Qed.

Lemma similarity_scores_length (texts : list string) (job : string) (scores : list R) :
  similarity_scores texts job = Ok scores ->
  List.length scores = List.length texts.
Proof.
  intros H. apply similarity_scores_inv in H as [_ ->]. apply length_map.
Qed.

(** What a call that returns has gone through. *)
Lemma match_resumes_inv (texts names : list string) (job : string) (res : list entry) :
  match_resumes texts names job = Ok res ->
  (res = [] /\ (texts = [] \/ names = [])) \/
  (texts <> [] /\ List.length texts = List.length names /\
   exists scores, similarity_scores texts job = Ok scores /\
                  res = sort_desc (results names scores)).
Proof.
  intros H.
  destruct texts as [| t texts].
  { left. split; [unfold match_resumes in H; simpl in H; congruence | now left]. }
  destruct names as [| n names].
  { left. split; [unfold match_resumes in H; simpl in H; congruence | now right]. }
  right.
  destruct (Nat.eq_dec (List.length (t :: texts)) (List.length (n :: names))) as [E | N].
  - split; [discriminate |]. split; [exact E |].
    rewrite (match_resumes_valid (t :: texts) (n :: names) job) in H
      by (discriminate || exact E).
    destruct (similarity_scores (t :: texts) job) as [scores | e];
      [| discriminate].
    exists scores. split; [reflexivity |]. unfold bind in H. congruence.
  - exfalso. unfold match_resumes in H.
    apply Nat.eqb_neq in N. simpl is_empty in H. simpl orb in H. cbv iota in H.
    rewrite N in H. discriminate.
Qed.

(** A call on well-formed lists returns as soon as the vocabulary is not
    empty. *)
Lemma match_resumes_returns (texts names : list string) (job : string) :
  texts <> [] -> List.length texts = List.length names ->
  vocabulary (corpus texts job) <> [] ->
  exists scores,
    similarity_scores texts job = Ok scores /\
    match_resumes texts names job = Ok (sort_desc (results names scores)).
Proof.
  intros Hne Hlen Hv. eexists. split; [apply (similarity_scores_ok _ _ Hv) |].
  rewrite (match_resumes_valid _ _ _ Hne Hlen), (similarity_scores_ok _ _ Hv).
  reflexivity.
Qed.

Lemma score_bounds (texts : list string) (job t : string) :
  0 <= cosine (doc_row texts job job) (doc_row texts job t) <= 1.
Proof. apply cosine_bounds; apply tfidf_row_nonneg. Qed.

Lemma In_corpus (texts : list string) (job t : string) :
  t = job \/ In t texts -> In (preprocess_text t) (corpus texts job).
Proof.
  intros [-> | Hin]; [now left |]. right. now apply in_map.
Qed.

End Scores.

Section ScoreValues.

Context {nltk : Nltk}.
Import Sklearn.
Local Open Scope R_scope.

Lemma nth_map_score {A : Type} (f : A -> R) (l : list A) (i : nat) (a : A) :
  nth_error l i = Some a -> nth i (map f l) 0 = f a.
Proof.
  intros H. apply nth_error_nth. rewrite nth_error_map, H. reflexivity.
Qed.


Lemma text_without_terms (texts : list string) (job t : string) :
  analyze (preprocess_text t) = [] ->
  cosine (doc_row texts job job) (doc_row texts job t) = 0.
Proof. intros H. apply cosine_zero_r. now apply tfidf_row_no_term. Qed.


Lemma results_Forall (P : R -> Prop) (names : list string) (scores : list R) :
  List.length scores = List.length names ->
  Forall P scores -> Forall (fun e => P (score e)) (results names scores).
Proof.
  intros Hlen Hs. apply (proj1 (Forall_map score P (results names scores))).
  now rewrite results_scores.
Qed.

Lemma sorted_entry (names : list string) (scores : list R) (i : nat) :
  (i < List.length names)%nat ->
  In {| name := nth i names ""%string; score := nth i scores 0 |}
     (sort_desc (results names scores)).
Proof.
  intros Hi. eapply Permutation_in; [apply sort_desc_perm |].
  eapply nth_error_In. now apply results_nth.
Qed.

End ScoreValues.

(** C6, as stated, fails: the scores are 64-bit floats and are not
    clipped.  For one candidate whose text is the query, the five terms
    have the weight [1.0]; normalizing the row twice and accumulating the
    five squares gives the float next above [1.0]. *)
Lemma C6_counterexample :
  @F64.match_resumes RefNltk.inst RefNumpy.inst
    ["Senior backend engineer with Python experience"] ["cv.pdf"]
    "Senior backend engineer with Python experience"
  = Ok [{| F64.name := "cv.pdf"; F64.score := F64.one_plus_ulp |}] /\
  PrimFloat.ltb F64.one F64.one_plus_ulp = true.
Proof. split; vm_compute; reflexivity. Qed.

(** C6 (amended): whenever [match_resumes] returns, no score of the
    returned list is negative: the TF-IDF rows have no negative entry, and
    neither have the normalized rows nor the sum of their products. *)
Theorem C6_scores_not_negative :
  forall (nltk : Nltk) (texts names : list string) (job_text : string)
         (res : list entry),
    match_resumes texts names job_text = Ok res ->
    Forall (fun e => (0 <= score e)%R) res.
Proof.
  intros nltk texts names job_text res H.
  apply match_resumes_inv in H as [[-> _] | [_ [Hlen [scores [Hs ->]]]]];
    [constructor |].
  eapply Permutation_Forall; [apply sort_desc_perm |].
  pose proof (similarity_scores_length _ _ _ Hs) as Hl.
  apply (results_Forall (fun x => (0 <= x)%R)); [congruence |].
  apply similarity_scores_inv in Hs as [_ ->].
  apply Forall_map, Forall_forall. intros t _.
  unfold Sklearn.cosine, doc_row.
  apply dot_nonneg; apply normalize_nonneg, tfidf_row_nonneg.
Qed.

Lemma C6_witness :
  exists res,
    @match_resumes RefNltk.inst
      ["Experienced Python developer"; "Graphic designer"; ""]
      ["a.pdf"; "b.pdf"; "c.pdf"] "Looking for a Python developer" = Ok res /\
    Forall (fun e => (0 <= score e)%R) res.
Proof.
  destruct (@match_resumes_returns RefNltk.inst
              ["Experienced Python developer"; "Graphic designer"; ""]
              ["a.pdf"; "b.pdf"; "c.pdf"] "Looking for a Python developer")
    as [scores [_ Hm]].
  - discriminate.
  - reflexivity.
  - apply (vocabulary_not_nil _ "graphic designer");
      [right; right; left; vm_compute; reflexivity | vm_compute; discriminate].
  - eexists. split; [exact Hm |].
    exact (C6_scores_not_negative RefNltk.inst _ _ _ _ Hm).
Defined.

(** C3: on non-empty lists of equal length, the returned list is sorted
    by non-increasing score, and for every score value the entries with
    that score stand in the returned list in the order of their
    candidates in the input. *)
Theorem C3_sorted_descending_and_stable :
  forall (nltk : Nltk) (texts names : list string) (job_text : string)
         (res : list entry),
    texts <> [] -> List.length texts = List.length names ->
    match_resumes texts names job_text = Ok res ->
    StronglySorted score_ge res /\
    exists scores,
      similarity_scores texts job_text = Ok scores /\
      map name (results names scores) = names /\
      map score (results names scores) = scores /\
      forall s, with_score s res = with_score s (results names scores).
Proof.
  intros nltk texts names job_text res Hne Hlen H.
  apply match_resumes_inv in H as [[_ [E | E]] | [_ [_ [scores [Hs ->]]]]].
  - contradiction.
  - subst names. destruct texts; simpl in Hlen; [contradiction | discriminate].
  - split; [apply sort_desc_sorted |].
    exists scores. split; [exact Hs |]. split; [apply results_names |].
    split.
    + apply results_scores.
      rewrite (similarity_scores_length _ _ _ Hs). exact Hlen.
    + intros s. apply sort_desc_stable.
Qed.

Lemma C3_witness :
  exists res,
    @match_resumes RefNltk.inst
      ["Graphic designer"; "Python developer"; ""; "the"]
      ["a.pdf"; "b.pdf"; "c.pdf"; "c.pdf"] "Python developer wanted" = Ok res /\
    StronglySorted score_ge res /\
    exists scores,
      @similarity_scores RefNltk.inst
        ["Graphic designer"; "Python developer"; ""; "the"]
        "Python developer wanted" = Ok scores /\
      map name (results ["a.pdf"; "b.pdf"; "c.pdf"; "c.pdf"] scores)
      = ["a.pdf"; "b.pdf"; "c.pdf"; "c.pdf"] /\
      map score (results ["a.pdf"; "b.pdf"; "c.pdf"; "c.pdf"] scores) = scores /\
      forall s, with_score s res
                = with_score s (results ["a.pdf"; "b.pdf"; "c.pdf"; "c.pdf"] scores).
Proof.
  destruct (@match_resumes_returns RefNltk.inst
              ["Graphic designer"; "Python developer"; ""; "the"]
              ["a.pdf"; "b.pdf"; "c.pdf"; "c.pdf"] "Python developer wanted")
    as [scores [_ Hm]].
  - discriminate.
  - reflexivity.
  - apply (vocabulary_not_nil _ "python developer wanted");
      [left; vm_compute; reflexivity | vm_compute; discriminate].
  - eexists. split; [exact Hm |].
    apply (C3_sorted_descending_and_stable RefNltk.inst
             ["Graphic designer"; "Python developer"; ""; "the"]
             ["a.pdf"; "b.pdf"; "c.pdf"; "c.pdf"] "Python developer wanted");
      [discriminate | reflexivity | exact Hm].
Defined.

(** C4, as stated, fails: a non-empty candidate list with a matching
    names list whose documents keep no term gets no result entry at all. *)
Lemma C4_counterexample :
  List.length ["the"; "and of"] = List.length ["a.pdf"; "b.pdf"] /\
  ~ (exists res,
       @match_resumes RefNltk.inst ["the"; "and of"] ["a.pdf"; "b.pdf"] "with" = Ok res /\
       List.length res = 2).
Proof.
  split; [reflexivity |].
  assert (H : @match_resumes RefNltk.inst ["the"; "and of"] ["a.pdf"; "b.pdf"] "with"
              = Raise empty_vocabulary) by (vm_compute; reflexivity).
  intros [res [Hres _]]. rewrite H in Hres. discriminate.
Qed.

(** C4 (amended): for a non-empty candidate list with a names list of the
    same length and a combined vocabulary that is not empty,
    [match_resumes] returns one entry per candidate: the returned list has
    the length of the input and is a rearrangement of the entries built in
    input order, whose names are the input names, duplicates included. *)
Theorem C4_one_entry_per_candidate :
  forall (nltk : Nltk) (texts names : list string) (job_text : string),
    texts <> [] -> List.length texts = List.length names ->
    Sklearn.vocabulary (corpus texts job_text) <> [] ->
    exists res scores,
      match_resumes texts names job_text = Ok res /\
      similarity_scores texts job_text = Ok scores /\
      List.length res = List.length texts /\
      map name (results names scores) = names /\
      Permutation (results names scores) res /\
      Permutation names (map name res).
Proof.
  intros nltk texts names job_text Hne Hlen Hv.
  destruct (match_resumes_returns texts names job_text Hne Hlen Hv)
    as [scores [Hs Hm]].
  exists (sort_desc (results names scores)), scores.
  split; [exact Hm |]. split; [exact Hs |].
  split; [rewrite sort_desc_length, results_length; congruence |].
  split; [apply results_names |].
  split; [apply sort_desc_perm |].
  rewrite <- (results_names names scores) at 1.
  apply Permutation_map, sort_desc_perm.
Qed.

Lemma C4_witness :
  exists res scores,
    @match_resumes RefNltk.inst
      ["Python developer"; "Graphic designer"; "Python developer"]
      ["a.pdf"; "b.pdf"; "a.pdf"] "Python developer wanted" = Ok res /\
    @similarity_scores RefNltk.inst
      ["Python developer"; "Graphic designer"; "Python developer"]
      "Python developer wanted" = Ok scores /\
    List.length res = 3 /\
    map name (results ["a.pdf"; "b.pdf"; "a.pdf"] scores) = ["a.pdf"; "b.pdf"; "a.pdf"] /\
    Permutation (results ["a.pdf"; "b.pdf"; "a.pdf"] scores) res /\
    Permutation ["a.pdf"; "b.pdf"; "a.pdf"] (map name res).
Proof.
  apply (C4_one_entry_per_candidate RefNltk.inst
           ["Python developer"; "Graphic designer"; "Python developer"]
           ["a.pdf"; "b.pdf"; "a.pdf"] "Python developer wanted").
  - discriminate.
  - reflexivity.
  - apply (vocabulary_not_nil _ "python developer wanted");
      [left; vm_compute; reflexivity | vm_compute; discriminate].
Defined.




(** C7: a candidate whose content is the empty string, in a call on
    lists of equal length where some document (the query or a candidate)
    has a term, does not make [match_resumes] raise, and its entry in the
    returned list has the score [0].  That the tokenizer returns no token
    for the empty string is a hypothesis on NLTK. *)
Theorem C7_empty_candidate_scores_zero :
  forall (nltk : Nltk) (texts names : list string) (job_text : string) (i : nat),
    word_tokenize "" = [] ->
    List.length texts = List.length names ->
    nth_error texts i = Some "" ->
    (exists d, (d = job_text \/ In d texts) /\
               Sklearn.analyze (preprocess_text d) <> []) ->
    exists scores res,
      similarity_scores texts job_text = Ok scores /\
      match_resumes texts names job_text = Ok res /\
      nth i scores 0%R = 0%R /\
      In {| name := nth i names ""; score := 0%R |} res.
Proof.
  intros nltk texts names job_text i Htok Hlen Hi [d [Hd Hterm]].
  assert (Hlt : i < List.length texts) by (apply nth_error_Some; congruence).
  assert (Hne : texts <> []) by (intros ->; simpl in Hlt; lia).
  assert (Hv : Sklearn.vocabulary (corpus texts job_text) <> []).
  { apply (vocabulary_not_nil _ (preprocess_text d)); [| exact Hterm].
    now apply In_corpus. }
  destruct (match_resumes_returns texts names job_text Hne Hlen Hv)
    as [scores [Hs Hm]].
  assert (Hpre : preprocess_text "" = "").
  { unfold preprocess_text. simpl PyStr.lower. rewrite Htok. reflexivity. }
  assert (H0 : nth i scores 0%R = 0%R).
  { pose proof Hs as Hs'. apply similarity_scores_inv in Hs' as [_ ->].
    rewrite (nth_map_score _ _ i "" Hi).
    apply text_without_terms. rewrite Hpre. reflexivity. }
  exists scores, (sort_desc (results names scores)).
  split; [exact Hs |]. split; [exact Hm |]. split; [exact H0 |].
  rewrite <- H0. apply sorted_entry. lia.
Qed.

Lemma C7_witness :
  exists scores res,
    @similarity_scores RefNltk.inst
      ["Experienced Python developer"; "Graphic designer"; ""]
      "Looking for a Python developer" = Ok scores /\
    @match_resumes RefNltk.inst
      ["Experienced Python developer"; "Graphic designer"; ""]
      ["A"; "B"; "C"] "Looking for a Python developer" = Ok res /\
    nth 2 scores 0%R = 0%R /\
    In {| name := "C"; score := 0%R |} res.
Proof.
  apply (C7_empty_candidate_scores_zero RefNltk.inst
           ["Experienced Python developer"; "Graphic designer"; ""]
           ["A"; "B"; "C"] "Looking for a Python developer" 2).
  - reflexivity.
  - reflexivity.
  - reflexivity.
  - exists "Graphic designer". split; [right; right; left; reflexivity |].
    vm_compute. discriminate.
Defined.

(** * Rows as functions of the term *)

Section Pointwise.

Import Sklearn.
Local Open Scope R_scope.

Lemma tf_idf_row_weight (vocab docs : list string) (doc : string) :
  tf_idf_row vocab docs doc = map (weight docs doc) vocab.
Proof. reflexivity. Qed.

Lemma unit_scale_pos (s : R) : 0 <= s -> 0 < unit_scale s.
Proof.
  intros Hs. unfold unit_scale. destruct (Req_dec_T s 0); [lra |].
  apply Rinv_0_lt_compat, sqrt_lt_R0. lra.
Qed.

Lemma normalize_scale_map (v : list R) :
  normalize v = map (fun x => x * unit_scale (sum_sq v)) v.
Proof.
  unfold normalize, unit_scale. destruct (Req_dec_T (sum_sq v) 0).
  - rewrite <- (map_id v) at 1. apply map_ext. intros x. lra.
  - apply map_ext. intros x. reflexivity.
Qed.

Lemma normalize_map (a : string -> R) (V : list string) :
  normalize (map a V)
  = map (fun t => a t * unit_scale (sum_sq (map a V))) V.
Proof. rewrite normalize_scale_map, map_map. reflexivity. Qed.

Lemma sum_sq_map (a : string -> R) (V : list string) :
  sum_sq (map a V) = sum_over (fun t => a t * a t) V.
Proof.
  unfold sum_over. induction V as [| t V IH]; simpl; [reflexivity |].
  now rewrite IH.
Qed.

Lemma dot_map (a b : string -> R) (V : list string) :
  dot (map a V) (map b V) = sum_over (fun t => a t * b t) V.
Proof.
  unfold dot, sum_over. induction V as [| t V IH]; simpl; [reflexivity |].
  now rewrite IH.
Qed.

Lemma sum_over_perm (f : string -> R) (V V' : list string) :
  Permutation V V' -> sum_over f V = sum_over f V'.
Proof.
  unfold sum_over. induction 1; simpl; [reflexivity | | | congruence].
  - now rewrite IHPermutation.
  - lra.
Qed.

Lemma sum_over_ext (f g : string -> R) (V : list string) :
  (forall t, In t V -> f t = g t) -> sum_over f V = sum_over g V.
Proof.
  intros H. unfold sum_over. f_equal. apply map_ext_in. exact H.
Qed.

Lemma sum_over_scale (f : string -> R) (c : R) (V : list string) :
  sum_over (fun t => f t * c) V = sum_over f V * c.
Proof.
  unfold sum_over. induction V as [| t V IH]; simpl; [lra |].
  rewrite IH. lra.
Qed.

Lemma sum_over_nonneg (f : string -> R) (V : list string) :
  (forall t, 0 <= f t) -> 0 <= sum_over f V.
Proof.
  intros H. unfold sum_over. induction V as [| t V IH]; simpl; [lra |].
  specialize (H t). lra.
Qed.

Lemma sum_over_pos (f : string -> R) (V : list string) (t : string) :
  (forall u, 0 <= f u) -> In t V -> 0 < f t -> 0 < sum_over f V.
Proof.
  intros H Hin Ht. unfold sum_over.
  induction V as [| u V IH]; simpl in *; [tauto |].
  destruct Hin as [-> | Hin].
  - pose proof (sum_over_nonneg f V H) as Hn. unfold sum_over in Hn. lra.
  - specialize (IH Hin). specialize (H u). lra.
Qed.

Lemma sum_over_zero (f : string -> R) (V : list string) :
  (forall t, In t V -> f t = 0) -> sum_over f V = 0.
Proof.
  intros H. unfold sum_over. induction V as [| u V IH]; simpl; [reflexivity |].
  rewrite (H u) by now left. rewrite IH; [lra |].
  intros t Ht. apply H. now right.
Qed.

(** The factor that [normalize] applied twice multiplies a row with, as a
    function of the squared norm of the row. *)
Lemma normalize_twice_map (a : string -> R) (V : list string) :
  exists c, 0 < c /\
    normalize (normalize (map a V)) = map (fun t => a t * c) V /\
    forall V', Permutation V V' ->
               normalize (normalize (map a V')) = map (fun t => a t * c) V'.
Proof.
  set (s := sum_over (fun t => a t * a t) V).
  set (c1 := unit_scale s).
  set (s2 := s * (c1 * c1)).
  exists (c1 * unit_scale s2).
  assert (Hs : 0 <= s).
  { unfold s. apply sum_over_nonneg. intros t. nra. }
  assert (Hc1 : 0 < c1) by (apply unit_scale_pos; exact Hs).
  assert (Hs2 : 0 <= s2) by (unfold s2; nra).
  assert (Hgen : forall W, Permutation V W ->
             normalize (normalize (map a W))
             = map (fun t => a t * (c1 * unit_scale s2)) W).
  { intros W HW.
    assert (E1 : sum_sq (map a W) = s).
    { rewrite sum_sq_map. unfold s. symmetry. now apply sum_over_perm. }
    rewrite (normalize_map a W), E1. fold c1.
    rewrite (normalize_map (fun t => a t * c1) W).
    assert (E2 : sum_sq (map (fun t => a t * c1) W) = s2).
    { rewrite sum_sq_map.
      rewrite (sum_over_ext _ (fun t => a t * a t * (c1 * c1)))
        by (intros t _; lra).
      rewrite sum_over_scale. unfold s2.
      f_equal. unfold s. symmetry. now apply sum_over_perm. }
    rewrite E2. apply map_ext. intros t. lra. }
  split; [apply Rmult_lt_0_compat; [exact Hc1 | now apply unit_scale_pos] |].
  split; [apply Hgen; reflexivity | exact Hgen].
Qed.

(** The similarity of two rows over the same columns is a positive
    multiple of the sum of the products of their entries, and does not
    depend on the order of the columns. *)
Lemma cosine_map (a b : string -> R) (V : list string) :
  exists k, 0 < k /\
    cosine (normalize (map a V)) (normalize (map b V))
    = k * sum_over (fun t => a t * b t) V /\
    forall V', Permutation V V' ->
      cosine (normalize (map a V')) (normalize (map b V'))
      = k * sum_over (fun t => a t * b t) V.
Proof.
  destruct (normalize_twice_map a V) as [ca [Hca [_ Ea]]].
  destruct (normalize_twice_map b V) as [cb [Hcb [_ Eb]]].
  exists (ca * cb).
  assert (Hgen : forall W, Permutation V W ->
             cosine (normalize (map a W)) (normalize (map b W))
             = ca * cb * sum_over (fun t => a t * b t) V).
  { intros W HW. unfold cosine. rewrite (Ea W HW), (Eb W HW), dot_map.
    rewrite (sum_over_ext _ (fun t => a t * b t * (ca * cb)))
      by (intros t _; lra).
    rewrite sum_over_scale, <- (sum_over_perm _ V W HW). lra. }
  split; [now apply Rmult_lt_0_compat |].
  split; [apply Hgen; reflexivity | exact Hgen].
Qed.

End Pointwise.

(** * What a score depends on *)

Section ScoreStructure.

Context {nltk : Nltk}.
Import Sklearn.
Local Open Scope R_scope.

Lemma count_zero (t : string) (tokens : list string) :
  ~ In t tokens -> count t tokens = 0%nat.
Proof.
  unfold count. induction tokens as [| u tokens IH]; simpl; [reflexivity |].
  intros Hn. destruct (String.eqb_spec t u) as [-> | Hne].
  - exfalso. apply Hn. now left.
  - apply IH. intros Hin. apply Hn. now right.
Qed.

Lemma weight_nonneg (docs : list string) (doc t : string) :
  0 <= weight docs doc t.
Proof.
  unfold weight. apply Rmult_le_pos; [apply pos_INR | left; apply idf_pos].
Qed.

Lemma weight_pos (docs : list string) (doc t : string) :
  In t (analyze doc) -> 0 < weight docs doc t.
Proof.
  intros Hin. unfold weight. apply Rmult_lt_0_compat; [| apply idf_pos].
  pose proof (count_pos t _ Hin) as Hc. apply le_INR in Hc. simpl in Hc. lra.
Qed.

Lemma weight_zero (docs : list string) (doc t : string) :
  ~ In t (analyze doc) -> weight docs doc t = 0.
Proof.
  intros Hn. unfold weight. rewrite (count_zero t _ Hn). simpl. lra.
Qed.

Lemma in_tokens_dec (t : string) (tokens : list string) :
  {In t tokens} + {~ In t tokens}.
Proof. apply in_dec, string_dec. Qed.

(** The score of a text against the query, as a sum over the
    vocabulary. *)
Lemma score_as_sum (texts : list string) (job t : string) :
  exists k, 0 < k /\
    cosine (doc_row texts job job) (doc_row texts job t)
    = k * sum_over (fun u => weight (corpus texts job) (preprocess_text job) u
                             * weight (corpus texts job) (preprocess_text t) u)
                   (vocabulary (corpus texts job)).
Proof.
  destruct (cosine_map (weight (corpus texts job) (preprocess_text job))
                       (weight (corpus texts job) (preprocess_text t))
                       (vocabulary (corpus texts job))) as [k [Hk [E _]]].
  exists k. split; [exact Hk |]. exact E.
Qed.

Lemma score_shared_term (texts : list string) (job t : string) :
  0 < cosine (doc_row texts job job) (doc_row texts job t) <->
  exists term, In term (analyze (preprocess_text job)) /\
               In term (analyze (preprocess_text t)).
Proof.
  destruct (score_as_sum texts job t) as [k [Hk ->]].
  set (C := corpus texts job). set (V := vocabulary C).
  set (f := fun u => weight C (preprocess_text job) u * weight C (preprocess_text t) u).
  assert (Hf : forall u, 0 <= f u).
  { intros u. unfold f. apply Rmult_le_pos; apply weight_nonneg. }
  split.
  - intros Hpos.
    assert (Hs : 0 < sum_over f V).
    { pose proof (sum_over_nonneg f V Hf).
      destruct (Rle_lt_or_eq_dec _ _ H) as [Hlt | Heq]; [exact Hlt |].
      rewrite <- Heq in Hpos. lra. }
    assert (Hex : exists u, In u V /\ f u <> 0).
    { clear Hpos. induction V as [| u V IH].
      - unfold sum_over in Hs. simpl in Hs. lra.
      - destruct (Req_dec_T (f u) 0) as [E | N].
        + destruct IH as [w [Hw Hfw]].
          * unfold sum_over in *. simpl in Hs. lra.
          * exists w. split; [now right | exact Hfw].
        + exists u. split; [now left | exact N]. }
    destruct Hex as [u [_ Hu]]. exists u. unfold f in Hu.
    split.
    + destruct (in_tokens_dec u (analyze (preprocess_text job))) as [Hin | Hn];
        [exact Hin |].
      rewrite (weight_zero C _ u Hn) in Hu. lra.
    + destruct (in_tokens_dec u (analyze (preprocess_text t))) as [Hin | Hn];
        [exact Hin |].
      rewrite (weight_zero C _ u Hn) in Hu. lra.
  - intros [u [Hj Ht]].
    apply Rmult_lt_0_compat; [exact Hk |].
    apply (sum_over_pos f V u Hf).
    + apply vocabulary_In. exists (preprocess_text job).
      split; [now left | exact Hj].
    + unfold f. apply Rmult_lt_0_compat; now apply weight_pos.
Qed.

End ScoreStructure.

(** * The order of the candidates *)

Section CandidateOrder.

Context {nltk : Nltk}.
Import Sklearn.
Local Open Scope R_scope.

Lemma insert_term_perm (t : string) (l : list string) :
  Permutation (t :: l) (insert_term t l).
Proof.
  induction l as [| u l IH]; simpl; [reflexivity |].
  destruct (String.leb t u); [reflexivity |].
  rewrite perm_swap. now apply perm_skip.
Qed.

Lemma sort_terms_perm (l : list string) : Permutation l (sort_terms l).
Proof.
  induction l as [| t l IH]; simpl; [constructor |].
  rewrite <- insert_term_perm. now apply perm_skip.
Qed.

Lemma vocabulary_NoDup (docs : list string) : NoDup (vocabulary docs).
Proof.
  unfold vocabulary.
  eapply Permutation_NoDup; [apply sort_terms_perm | apply NoDup_nodup].
Qed.

Lemma vocabulary_perm (docs docs' : list string) :
  Permutation docs docs' ->
  Permutation (vocabulary docs) (vocabulary docs').
Proof.
  intros HP. apply NoDup_Permutation; try apply vocabulary_NoDup.
  intros t. rewrite !vocabulary_In. split; intros [d [Hd Ht]]; exists d.
  - split; [eapply Permutation_in; eassumption | exact Ht].
  - split; [eapply Permutation_in; [symmetry |]; eassumption | exact Ht].
Qed.

Lemma df_perm (t : string) (docs docs' : list string) :
  Permutation docs docs' -> df t docs = df t docs'.
Proof.
  unfold df. induction 1 as [| d l l' _ IH | d e l | l l' l'' _ IH1 _ IH2];
    simpl; [reflexivity | | | congruence].
  - destruct (in_set t (analyze d)); simpl; congruence.
  - destruct (in_set t (analyze d)), (in_set t (analyze e)); reflexivity.
Qed.

Lemma weight_perm (docs docs' : list string) (doc t : string) :
  Permutation docs docs' -> weight docs doc t = weight docs' doc t.
Proof.
  intros HP. unfold weight.
  now rewrite (df_perm t _ _ HP), (Permutation_length HP).
Qed.

Lemma corpus_perm (texts texts' : list string) (job : string) :
  Permutation texts texts' ->
  Permutation (corpus texts job) (corpus texts' job).
Proof. intros HP. unfold corpus. now apply perm_skip, Permutation_map. Qed.

(** The score of a text does not depend on the order in which the
    candidates are given. *)
Lemma score_perm (texts texts' : list string) (job t : string) :
  Permutation texts texts' ->
  cosine (doc_row texts job job) (doc_row texts job t)
  = cosine (doc_row texts' job job) (doc_row texts' job t).
Proof.
  intros HP.
  pose proof (corpus_perm _ _ job HP) as HC.
  pose proof (vocabulary_perm _ _ HC) as HV.
  destruct (cosine_map (weight (corpus texts job) (preprocess_text job))
                       (weight (corpus texts job) (preprocess_text t))
                       (vocabulary (corpus texts job))) as [k [_ [E1 E2]]].
  unfold doc_row, tfidf_row. rewrite !tf_idf_row_weight.
  rewrite E1, <- (E2 _ HV).
  f_equal; f_equal; apply map_ext; intros u; symmetry; now apply weight_perm.
Qed.

Lemma results_combine (names : list string) (scores : list R) :
  List.length names = List.length scores ->
  results names scores
  = map (fun p => {| name := fst p; score := snd p |}) (combine names scores).
Proof.
  unfold results. revert scores.
  induction names as [| n names IH]; intros [| s scores] Hlen;
    simpl in *; try discriminate; [reflexivity |].
  f_equal. rewrite <- seq_shift, map_map. apply IH. congruence.
Qed.

Lemma results_pairs (f : string -> R) (pairs : list (string * string)) :
  results (map fst pairs) (map f (map snd pairs))
  = map (fun p => {| name := fst p; score := f (snd p) |}) pairs.
Proof.
  rewrite results_combine by now rewrite !length_map.
  induction pairs as [| [n t] pairs IH]; simpl; [reflexivity |].
  now rewrite IH.
Qed.

End CandidateOrder.

(** * Further properties of [match_resumes] *)

(** X1: a call of [match_resumes] ends in one of four ways, and which one
    is decided by the lists and the vocabulary alone: the empty list when
    a list is empty; the length-mismatch error when both lists are not
    empty and differ in length; the empty-vocabulary error when the lists
    match and no document has a term; otherwise a list with one entry per
    candidate.  No other exception is raised. *)
Theorem X1_match_resumes_outcomes :
  forall (nltk : Nltk) (texts names : list string) (job_text : string),
    ((texts = [] \/ names = []) /\ match_resumes texts names job_text = Ok [])
    \/ (texts <> [] /\ names <> [] /\
        List.length texts <> List.length names /\
        match_resumes texts names job_text = Raise length_mismatch)
    \/ (texts <> [] /\ List.length texts = List.length names /\
        Sklearn.vocabulary (corpus texts job_text) = [] /\
        match_resumes texts names job_text = Raise empty_vocabulary)
    \/ (texts <> [] /\ List.length texts = List.length names /\
        Sklearn.vocabulary (corpus texts job_text) <> [] /\
        exists res, match_resumes texts names job_text = Ok res /\
                    List.length res = List.length texts).
Proof.
  intros nltk texts names job_text.
  destruct texts as [| t texts]; [left; split; [now left | reflexivity] |].
  destruct names as [| n names]; [left; split; [now right | reflexivity] |].
  right.
  destruct (Nat.eq_dec (List.length (t :: texts)) (List.length (n :: names)))
    as [E | N].
  - right.
    destruct (Sklearn.vocabulary (corpus (t :: texts) job_text)) as [| v vs] eqn:Ev.
    + left. split; [discriminate |]. split; [exact E |]. split; [reflexivity |].
      rewrite match_resumes_valid by (discriminate || exact E).
      unfold similarity_scores. fold (corpus (t :: texts) job_text).
      unfold Sklearn.fit_transform. rewrite Ev. reflexivity.
    + right. split; [discriminate |]. split; [exact E |].
      split; [discriminate |].
      destruct (match_resumes_returns (t :: texts) (n :: names) job_text)
        as [scores [_ Hm]]; [discriminate | exact E | rewrite Ev; discriminate |].
      eexists. split; [exact Hm |].
      rewrite sort_desc_length, results_length. congruence.
  - left. split; [discriminate |]. split; [discriminate |]. split; [exact N |].
    unfold match_resumes. simpl is_empty. simpl orb. cbv iota.
    apply Nat.eqb_neq in N. rewrite N. reflexivity.
Qed.

(** X2: in a call that computes scores, the score of a candidate is
    positive exactly when its normalized text and the normalized query
    have a vectorizer term in common; without a common term it is [0]. *)
Theorem X2_score_positive_iff_shared_term :
  forall (nltk : Nltk) (texts : list string) (job_text : string)
         (scores : list R) (i : nat) (text : string),
    similarity_scores texts job_text = Ok scores ->
    nth_error texts i = Some text ->
    ((0 < nth i scores 0)%R <->
     exists term, In term (Sklearn.analyze (preprocess_text job_text)) /\
                  In term (Sklearn.analyze (preprocess_text text))) /\
    ((forall term, In term (Sklearn.analyze (preprocess_text job_text)) ->
                   ~ In term (Sklearn.analyze (preprocess_text text))) ->
     nth i scores 0%R = 0%R).
Proof.
  intros nltk texts job_text scores i text Hs Hi.
  apply similarity_scores_inv in Hs as [_ ->].
  rewrite (nth_map_score
             (fun t => Sklearn.cosine (doc_row texts job_text job_text)
                                      (doc_row texts job_text t))
             texts i text Hi).
  split; [apply score_shared_term |].
  intros Hnone.
  pose proof (score_bounds texts job_text text) as [Hge _].
  destruct (Rle_lt_or_eq_dec _ _ Hge) as [Hlt | Heq]; [| now symmetry].
  apply score_shared_term in Hlt as [term [Hj Ht]].
  exfalso. exact (Hnone term Hj Ht).
Qed.

Lemma X2_witness :
  exists scores,
    @similarity_scores RefNltk.inst
      ["Experienced Python developer"; "Graphic designer with Adobe"]
      "Looking for a Python developer" = Ok scores /\
    (0 < nth 0 scores 0)%R /\ nth 1 scores 0%R = 0%R.
Proof.
  assert (Hv : Sklearn.vocabulary
                 (@corpus RefNltk.inst
                    ["Experienced Python developer"; "Graphic designer with Adobe"]
                    "Looking for a Python developer") <> []).
  { apply (vocabulary_not_nil _ "looking python developer");
      [left; vm_compute; reflexivity | vm_compute; discriminate]. }
  eexists. split; [apply (similarity_scores_ok _ _ Hv) |].
  pose proof (X2_score_positive_iff_shared_term RefNltk.inst
                ["Experienced Python developer"; "Graphic designer with Adobe"]
                "Looking for a Python developer" _ 0%nat
                "Experienced Python developer"
                (similarity_scores_ok _ _ Hv) eq_refl) as [Hpos _].
  pose proof (X2_score_positive_iff_shared_term RefNltk.inst
                ["Experienced Python developer"; "Graphic designer with Adobe"]
                "Looking for a Python developer" _ 1%nat
                "Graphic designer with Adobe"
                (similarity_scores_ok _ _ Hv) eq_refl) as [_ Hzero].
  split.
  - apply Hpos. exists "python". split; vm_compute; tauto.
  - apply Hzero. intros term Hj Ht. vm_compute in Hj, Ht.
    intuition (subst; discriminate).
Defined.



(** X5: giving the same named candidates in another order changes
    neither the outcome nor the entries: an error stays the same error,
    and a returned list is a rearrangement of the list returned for the
    other order (every candidate keeps its score). *)
Theorem X5_candidate_order_irrelevant :
  forall (nltk : Nltk) (pairs pairs' : list (string * string))
         (job_text : string),
    Permutation pairs pairs' ->
    (forall e,
        match_resumes (map snd pairs) (map fst pairs) job_text = Raise e ->
        match_resumes (map snd pairs') (map fst pairs') job_text = Raise e) /\
    (forall res,
        match_resumes (map snd pairs) (map fst pairs) job_text = Ok res ->
        exists res',
          match_resumes (map snd pairs') (map fst pairs') job_text = Ok res' /\
          Permutation res res').
Proof.
  intros nltk pairs pairs' job_text HP.
  assert (Hcase : pairs = [] \/ map snd pairs <> [])
    by (destruct pairs; [now left | right; discriminate]).
  destruct Hcase as [-> | Hne].
  { apply Permutation_nil in HP. subst pairs'. split.
    - intros e H. discriminate.
    - intros res H. exists res. split; [exact H | reflexivity]. }
  assert (Hne' : map snd pairs' <> []).
  { destruct pairs'; [| discriminate].
    apply Permutation_sym, Permutation_nil in HP. subst pairs.
    exfalso. now apply Hne. }
  assert (Hlen : List.length (map snd pairs) = List.length (map fst pairs))
    by now rewrite !length_map.
  assert (Hlen' : List.length (map snd pairs') = List.length (map fst pairs'))
    by now rewrite !length_map.
  assert (HPt : Permutation (map snd pairs) (map snd pairs'))
    by now apply Permutation_map.
  pose proof (vocabulary_perm _ _ (corpus_perm _ _ job_text HPt)) as HV.
  rewrite (match_resumes_valid (map snd pairs) (map fst pairs) job_text Hne Hlen).
  rewrite (match_resumes_valid (map snd pairs') (map fst pairs') job_text Hne' Hlen').
  destruct (Sklearn.vocabulary (corpus (map snd pairs) job_text))
    as [| v vs] eqn:Ev.
  - apply Permutation_nil in HV.
    unfold similarity_scores. fold (corpus (map snd pairs) job_text).
    fold (corpus (map snd pairs') job_text).
    unfold Sklearn.fit_transform. rewrite Ev, HV. simpl.
    split; [intros e H; exact H | intros res H; discriminate].
  - assert (Hv : Sklearn.vocabulary (corpus (map snd pairs) job_text) <> [])
      by (rewrite Ev; discriminate).
    assert (Hv' : Sklearn.vocabulary (corpus (map snd pairs') job_text) <> []).
    { intros E. rewrite E in HV. apply Permutation_sym, Permutation_nil in HV.
      discriminate. }
    rewrite (similarity_scores_ok _ _ Hv), (similarity_scores_ok _ _ Hv').
    unfold bind.
    split; [intros e H; discriminate |].
    intros res H. injection H as <-.
    eexists. split; [reflexivity |].
    eapply Permutation_trans; [apply Permutation_sym, sort_desc_perm |].
    eapply Permutation_trans; [| apply sort_desc_perm].
    rewrite !results_pairs.
    rewrite (map_ext
               (fun q : string * string =>
                  {| name := fst q;
                     score := Sklearn.cosine
                                (doc_row (map snd pairs') job_text job_text)
                                (doc_row (map snd pairs') job_text (snd q)) |})
               (fun q : string * string =>
                  {| name := fst q;
                     score := Sklearn.cosine
                                (doc_row (map snd pairs) job_text job_text)
                                (doc_row (map snd pairs) job_text (snd q)) |})).
    + now apply Permutation_map.
    + intros q. f_equal. symmetry. now apply score_perm.
Qed.

Lemma X5_witness :
  Permutation [("a.pdf", "Python developer"); ("b.pdf", "Graphic designer")]
              [("b.pdf", "Graphic designer"); ("a.pdf", "Python developer")] /\
  exists res res',
    @match_resumes RefNltk.inst ["Python developer"; "Graphic designer"]
      ["a.pdf"; "b.pdf"] "python" = Ok res /\
    @match_resumes RefNltk.inst ["Graphic designer"; "Python developer"]
      ["b.pdf"; "a.pdf"] "python" = Ok res' /\
    Permutation res res'.
Proof.
  assert (HP : Permutation
                 [("a.pdf", "Python developer"); ("b.pdf", "Graphic designer")]
                 [("b.pdf", "Graphic designer"); ("a.pdf", "Python developer")])
    by apply perm_swap.
  split; [exact HP |].
  destruct (@match_resumes_returns RefNltk.inst
              ["Python developer"; "Graphic designer"] ["a.pdf"; "b.pdf"] "python")
    as [scores [_ Hm]].
  - discriminate.
  - reflexivity.
  - apply (vocabulary_not_nil _ "python");
      [left; vm_compute; reflexivity | vm_compute; discriminate].
  - destruct (X5_candidate_order_irrelevant RefNltk.inst _ _ "python" HP)
      as [_ Hok].
    destruct (Hok _ Hm) as [res' [Hm' HPr]].
    eexists. exists res'. split; [exact Hm |]. split; [exact Hm' | exact HPr].
Defined.

(** * Further properties of [preprocess_text] *)

Section PreprocessFacts.

Context {nltk : Nltk}.

Lemma lower_char_idem (c : ascii) :
  PyStr.lower_char (PyStr.lower_char c) = PyStr.lower_char c.
Proof. destruct c as [[] [] [] [] [] [] [] []]; reflexivity. Qed.

Lemma lower_idem (s : string) : PyStr.lower (PyStr.lower s) = PyStr.lower s.
Proof.
  induction s as [| c s IH]; simpl; [reflexivity |].
  now rewrite lower_char_idem, IH.
Qed.

Lemma process_tokens_all_dropped (tokens : list string) :
  Forall (fun token => keep_token token = false) tokens ->
  process_tokens tokens = [].
Proof.
  induction 1 as [| token tokens Ht _ IH]; simpl; [reflexivity |].
  now rewrite Ht.
Qed.

Lemma prefix_app (t post : string) : String.prefix t (String.append t post) = true.
Proof.
  induction t as [| c t IH]; simpl; [now destruct post |].
  destruct (Ascii.ascii_dec c c); [exact IH | congruence].
Qed.

Lemma prefix_split (t s : string) :
  String.prefix t s = true -> exists post, s = String.append t post.
Proof.
  revert s. induction t as [| c t IH]; intros s H.
  - exists s. reflexivity.
  - destruct s as [| d s]; simpl in H; [discriminate |].
    destruct (Ascii.ascii_dec c d) as [-> | _]; [| discriminate].
    destruct (IH s H) as [post ->]. now exists post.
Qed.

(** [PyStr.contains s t] holds exactly when [t] is a slice of [s]. *)
Lemma contains_slice (s t : string) :
  PyStr.contains s t = true <->
  exists pre post, s = String.append pre (String.append t post).
Proof.
  split.
  - induction s as [| c s IH]; intros H.
    + change (String.prefix t EmptyString || false = true) in H.
      apply orb_true_iff in H as [H | H]; [| discriminate].
      apply prefix_split in H as [post E]. now exists EmptyString, post.
    + change (String.prefix t (String c s) || PyStr.contains s t = true) in H.
      apply orb_true_iff in H as [H | H].
      * apply prefix_split in H as [post E]. exists EmptyString, post. exact E.
      * destruct (IH H) as [pre [post ->]]. now exists (String c pre), post.
  - intros [pre [post ->]]. induction pre as [| c pre IH].
    + change (String.append EmptyString (String.append t post))
        with (String.append t post).
      destruct (String.append t post) eqn:E.
      * change (String.prefix t EmptyString || false = true).
        rewrite <- E, prefix_app. reflexivity.
      * change (String.prefix t (String a s) || PyStr.contains s t = true).
        rewrite <- E, prefix_app. reflexivity.
    + change (String.prefix t (String c (String.append pre (String.append t post)))
              || PyStr.contains (String.append pre (String.append t post)) t = true).
      rewrite IH. apply orb_true_r.
Qed.

End PreprocessFacts.

(** X6: lowercasing comes first, so [preprocess_text] does not see the
    case of ASCII letters: a text and its lowercase form normalize to the
    same text, and so do any two texts with the same lowercase form. *)
Theorem X6_preprocess_ignores_case :
  forall (nltk : Nltk) (text other : string),
    preprocess_text (PyStr.lower text) = preprocess_text text /\
    (PyStr.lower text = PyStr.lower other ->
     preprocess_text text = preprocess_text other).
Proof.
  intros nltk text other. unfold preprocess_text. split.
  - now rewrite lower_idem.
  - intros E. now rewrite E.
Qed.

(** X7: a text whose tokens are all stop words or slices of
    [string.punctuation] normalizes to the empty text; nothing is
    raised. *)
Theorem X7_only_stopwords_and_punctuation_gives_empty :
  forall (nltk : Nltk) (text : string),
    Forall (fun token => PyStr.contains PyStr.punctuation token = true \/
                         in_set token stop_words = true)
           (word_tokenize (PyStr.lower text)) ->
    preprocess_text text = "".
Proof.
  intros nltk text Hall. unfold preprocess_text.
  rewrite process_tokens_all_dropped; [reflexivity |].
  eapply Forall_impl; [| exact Hall].
  intros token [H | H]; unfold keep_token; rewrite H; simpl;
    [reflexivity | apply andb_false_r].
Qed.

Lemma X7_witness :
  @preprocess_text RefNltk.inst "This is it: to be, or not to be?" = "".
Proof.
  apply (X7_only_stopwords_and_punctuation_gives_empty RefNltk.inst).
  change (@word_tokenize RefNltk.inst (PyStr.lower "This is it: to be, or not to be?"))
    with ["this"; "is"; "it"; ":"; "to"; "be"; ","; "or"; "not"; "to"; "be"; "?"].
  repeat (apply Forall_cons;
          [first [left; reflexivity | right; reflexivity] |]).
  apply Forall_nil.
Defined.

(** X8: the guard of the loop keeps a token exactly when it is neither a
    slice of [string.punctuation] (the test is a substring test, so the
    empty token and every single punctuation character are slices) nor a
    stop word; every kept token is lemmatized and nothing else reaches the
    output. *)
Theorem X8_kept_tokens :
  forall (nltk : Nltk) (tokens : list string) (token word : string),
    (keep_token token = true <->
     ~ (exists pre post,
          PyStr.punctuation = String.append pre (String.append token post)) /\
     in_set token stop_words = false) /\
    (In word (process_tokens tokens) <->
     exists t, In t tokens /\ keep_token t = true /\ word = lemmatize t).
Proof.
  intros nltk tokens token word. split.
  - unfold keep_token. rewrite andb_true_iff, !negb_true_iff.
    rewrite <- contains_slice.
    destruct (PyStr.contains PyStr.punctuation token); split;
      intros [H1 H2]; split; congruence.
  - induction tokens as [| t tokens IH]; simpl.
    + split; [tauto | intros [t [[] _]]].
    + destruct (keep_token t) eqn:Ek; simpl; rewrite IH; split.
      * intros [<- | [u [Hu [Hk ->]]]]; [exists t | exists u]; auto.
      * intros [u [[-> | Hu] [Hk ->]]]; [now left | right; exists u; auto].
      * intros [u [Hu [Hk ->]]]. exists u; auto.
      * intros [u [[-> | Hu] [Hk ->]]]; [congruence | exists u; auto].
Qed.

(** * The [/match] endpoint *)

Section Endpoint.

Context {nltk : Nltk}.
Variable repr : json -> string.

Lemma check_resume_read (idx : nat) (resume : json) (p : string * string) :
  check_resume repr idx resume = inr p <-> read_resume repr resume = Some p.
Proof.
  unfold check_resume, read_resume. destruct resume; try (split; discriminate).
  destruct (Py.lookup "name" fields); [| split; discriminate].
  destruct (Py.lookup "content" fields); [| split; discriminate].
  split; intros H; injection H as <-; reflexivity.
Qed.

Lemma check_resume_valid (idx : nat) (resume : json) :
  valid_resume resume = true <-> exists p, check_resume repr idx resume = inr p.
Proof.
  unfold check_resume, valid_resume. destruct resume;
    try (split; [discriminate | intros [p H]; discriminate]).
  destruct (Py.lookup "name" fields);
    [| split; [discriminate | intros [p H]; discriminate]].
  destruct (Py.lookup "content" fields);
    [| split; [discriminate | intros [p H]; discriminate]].
  split; [intros _; eexists; reflexivity | reflexivity].
Qed.

(** The loop on resumes that are all accepted. *)
Lemma extract_accepts (items : list json) (pairs : list (string * string)) :
  map (read_resume repr) items = map Some pairs ->
  forall idx texts names,
    extract repr idx items texts names
    = inr (List.app texts (map snd pairs), List.app names (map fst pairs)).
Proof.
  revert pairs. induction items as [| item items IH]; intros [| p pairs] H;
    simpl in H; try discriminate; intros idx texts names.
  - simpl. now rewrite !app_nil_r.
  - injection H as Hp Hrest.
    apply (check_resume_read idx) in Hp. simpl. rewrite Hp.
    destruct p as [n c]. rewrite (IH pairs Hrest). simpl.
    now rewrite <- !app_assoc.
Qed.

(** The loop stops at the first resume it does not accept. *)
Lemma extract_rejects (pre post : list json) (bad : json)
  (pairs : list (string * string)) (error : string) :
  map (read_resume repr) pre = map Some pairs ->
  forall idx texts names,
    check_resume repr (idx + List.length pre) bad = inl error ->
    extract repr idx (List.app pre (bad :: post)) texts names
    = inl (bad_request error).
Proof.
  revert pairs. induction pre as [| item pre IH]; intros [| p pairs] H;
    simpl in H; try discriminate; intros idx texts names Hbad.
  - simpl in *. rewrite Nat.add_0_r in Hbad. now rewrite Hbad.
  - injection H as Hp Hrest.
    apply (check_resume_read idx) in Hp. simpl. rewrite Hp.
    destruct p as [n c]. apply (IH pairs Hrest).
    simpl in Hbad. now rewrite Nat.add_succ_r in Hbad.
Qed.

(** Whatever the loop returns: an early response is a 400 whose message
    starts with the same words, and two filled lists have grown by the
    number of resumes. *)
Lemma extract_inv (items : list json) :
  forall idx texts names,
    (exists rest,
        extract repr idx items texts names
        = inl (bad_request (String.append "Resume at index " rest))) \/
    (exists texts' names',
        extract repr idx items texts names = inr (texts', names') /\
        List.length texts' = List.length texts + List.length items /\
        List.length names' = List.length names + List.length items).
Proof.
  induction items as [| item items IH]; intros idx texts names.
  - right. exists texts, names. simpl. repeat split; lia.
  - simpl. destruct (check_resume repr idx item) as [error | [n c]] eqn:E.
    + left. unfold check_resume in E.
      destruct item; try (injection E as <-; eexists; reflexivity).
      destruct (Py.lookup "name" fields);
        [| injection E as <-; eexists; reflexivity].
      destruct (Py.lookup "content" fields);
        [discriminate | injection E as <-; eexists; reflexivity].
    + destruct (IH (S idx) (List.app texts [c]) (List.app names [n]))
        as [[rest H] | [texts' [names' [H [Ht Hn]]]]].
      * left. now exists rest.
      * right. exists texts', names'. split; [exact H |].
        rewrite length_app in Ht, Hn. simpl in *. lia.
Qed.

End Endpoint.

Section EndpointCases.

Context {nltk : Nltk}.
Variable repr : json -> string.

Lemma lookup_some_not_empty (key : string) (fields : list (string * json)) (v : json) :
  Py.lookup key fields = Some v -> is_empty fields = false.
Proof. destruct fields; [discriminate | reflexivity]. Qed.

(** A request that passes every check before the loop. *)
Lemma match_body_validated (req : request) (fields : list (string * json))
  (items : list json) (job : string) :
  is_json req = true ->
  get_json req = Some (JDict fields) ->
  Py.lookup "resumes" fields = Some (JList items) ->
  Py.lookup "job_description" fields = Some (JStr job) ->
  items <> [] ->
  Py.strip job <> "" ->
  match_body repr req =
  match extract repr 0 items [] [] with
  | inl early => Return early
  | inr (resume_texts, resume_names) =>
      match match_resumes resume_texts resume_names job with
      | Ok results => Return (ResultsBody results (List.length results), 200)
      | Raise e => Throw (Value e)
      end
  end.
Proof.
  intros Hj Hd Hr Hjob Hne Hstrip. unfold match_body.
  rewrite Hj, Hd. simpl negb. cbv iota.
  unfold Py.truthy. rewrite (lookup_some_not_empty _ _ _ Hr). simpl negb. cbv iota.
  unfold Py.contains, Py.get, bind_outcome. rewrite Hr, Hjob. simpl negb. cbv iota.
  destruct items as [| item items]; [congruence |].
  simpl Nat.eqb. cbv iota.
  apply String.eqb_neq in Hstrip. rewrite Hstrip. reflexivity.
Qed.

(** With lists of one length, the only error of [match_resumes] is the
    vectorizer's. *)
Lemma match_resumes_raise_inv (texts names : list string) (job : string) (e : exn) :
  List.length texts = List.length names ->
  match_resumes texts names job = Raise e -> e = empty_vocabulary.
Proof.
  intros Hlen H.
  destruct texts as [| t texts]; [discriminate |].
  rewrite match_resumes_valid in H by (discriminate || exact Hlen).
  unfold similarity_scores, Sklearn.fit_transform in H.
  destruct (Sklearn.vocabulary _); simpl in H; congruence.
Qed.

(** The messages of the checks of [match] before the loop. *)
Lemma match_endpoint_cases (req : request) :
  (exists error,
      match_endpoint repr req = bad_request error /\
      In error ["Content-Type must be application/json";
                "Request body is required";
                "Missing required field: 'resumes'";
                "Missing required field: 'job_description'";
                "'resumes' must be a list";
                "'resumes' list cannot be empty";
                "'job_description' must be a non-empty string"]) \/
  (exists rest,
      match_endpoint repr req
      = bad_request (String.append "Resume at index " rest)) \/
  match_endpoint repr req = (ErrorBody "An internal server error occurred", 500) \/
  (exists fields items job texts names,
      is_json req = true /\
      get_json req = Some (JDict fields) /\
      Py.lookup "resumes" fields = Some (JList items) /\
      Py.lookup "job_description" fields = Some (JStr job) /\
      items <> [] /\ Py.strip job <> "" /\
      extract repr 0 items [] [] = inr (texts, names) /\
      List.length texts = List.length items /\
      List.length names = List.length items /\
      match_endpoint repr req
      = match match_resumes texts names job with
        | Ok results => (ResultsBody results (List.length results), 200)
        | Raise (ValueError msg) => (ErrorBody msg, 400)
        end).
Proof.
  destruct req as [j body]. unfold match_endpoint, match_body; simpl.
  destruct j; simpl; [| left; eexists; split; [reflexivity | simpl; tauto]].
  destruct body as [data |]; [| right; right; left; reflexivity].
  destruct (Py.truthy data) eqn:Htruthy; simpl;
    [| left; eexists; split; [reflexivity | simpl; tauto]].
  destruct data as [| b | q | s | items | fields]; simpl;
    try (right; right; left; reflexivity).
  - destruct (PyStr.contains s "resumes"); simpl;
      [| left; eexists; split; [reflexivity | simpl; tauto]].
    destruct (PyStr.contains s "job_description"); simpl;
      [| left; eexists; split; [reflexivity | simpl; tauto]].
    right; right; left; reflexivity.
  - destruct (existsb (Py.is_str "resumes") items); simpl;
      [| left; eexists; split; [reflexivity | simpl; tauto]].
    destruct (existsb (Py.is_str "job_description") items); simpl;
      [| left; eexists; split; [reflexivity | simpl; tauto]].
    right; right; left; reflexivity.
  - destruct (Py.lookup "resumes" fields) as [resumes |] eqn:Hr; simpl;
      [| left; eexists; split; [reflexivity | simpl; tauto]].
    destruct (Py.lookup "job_description" fields) as [jd |] eqn:Hjd; simpl;
      [| left; eexists; split; [reflexivity | simpl; tauto]].
    destruct resumes as [| | | | items |];
      try (left; eexists; split; [reflexivity | simpl; tauto]).
    destruct items as [| item items]; simpl Nat.eqb; cbv iota;
      [left; eexists; split; [reflexivity | simpl; tauto] |].
    destruct jd as [| | | job | |];
      try (left; eexists; split; [reflexivity | simpl; tauto]).
    destruct (String.eqb_spec (Py.strip job) "") as [E | N];
      [left; eexists; split; [reflexivity | simpl; tauto] |].
    destruct (extract_inv repr (item :: items) 0 [] [])
      as [[rest H] | [texts [names [H [Ht Hn]]]]]; rewrite H.
    + right; left. now exists rest.
    + right; right; right.
      exists fields, (item :: items), job, texts, names.
      repeat (split; [first [reflexivity | assumption | discriminate] |]).
      destruct (match_resumes texts names job) as [res | [msg]]; reflexivity.
Qed.

End EndpointCases.

Section EndpointFacts.

Context {nltk : Nltk}.
Variable repr : json -> string.

(** A validated request is answered with what [match_resumes] gives for
    the names and contents read from the resumes. *)
Lemma endpoint_validated (req : request) (fields : list (string * json))
  (items : list json) (job : string) (pairs : list (string * string)) :
  is_json req = true ->
  get_json req = Some (JDict fields) ->
  Py.lookup "resumes" fields = Some (JList items) ->
  Py.lookup "job_description" fields = Some (JStr job) ->
  items <> [] ->
  Py.strip job <> "" ->
  map (read_resume repr) items = map Some pairs ->
  match_endpoint repr req
  = match match_resumes (map snd pairs) (map fst pairs) job with
    | Ok results => (ResultsBody results (List.length results), 200)
    | Raise (ValueError msg) => (ErrorBody msg, 400)
    end.
Proof.
  intros Hj Hd Hr Hjob Hne Hstrip Hread. unfold match_endpoint.
  rewrite (match_body_validated repr req fields items job Hj Hd Hr Hjob Hne Hstrip).
  rewrite (extract_accepts repr items pairs Hread). simpl List.app.
  destruct (match_resumes (map snd pairs) (map fst pairs) job) as [res | [msg]];
    reflexivity.
Qed.

(** What a returned list looks like, for lists of one non-zero length. *)
Lemma match_resumes_ok_facts (texts names : list string) (job : string)
  (res : list entry) :
  texts <> [] -> List.length texts = List.length names ->
  match_resumes texts names job = Ok res ->
  List.length res = List.length texts /\
  StronglySorted score_ge res /\
  Forall (fun e => (0 <= score e)%R) res.
Proof.
  intros Hne Hlen H.
  apply match_resumes_inv in H as [[_ [E | E]] | [_ [_ [scores [Hs ->]]]]].
  - contradiction.
  - subst names. destruct texts; [contradiction | discriminate].
  - split; [rewrite sort_desc_length, results_length; congruence |].
    split; [apply sort_desc_sorted |].
    eapply Permutation_Forall; [apply sort_desc_perm |].
    pose proof (similarity_scores_length _ _ _ Hs) as Hl.
    apply (results_Forall (fun x => (0 <= x)%R)); [congruence |].
    apply similarity_scores_inv in Hs as [_ ->].
    apply Forall_map, Forall_forall. intros t _. apply score_bounds.
Qed.

Lemma strip_blank (s : string) :
  forallb Py.is_space (list_ascii_of_string s) = true -> Py.strip s = "".
Proof.
  unfold Py.strip. induction s as [| c s IH]; simpl; [reflexivity |].
  intros H. apply andb_true_iff in H as [Hc Hs]. rewrite Hc. now apply IH.
Qed.

End EndpointFacts.

(** X9: a request that passes the checks of [match] (JSON content type,
    an object with a non-empty list [resumes] of objects that have [name]
    and [content], and a [job_description] string that is not blank) is
    answered with the outcome of [match_resumes] on the names and contents
    in request order: its list with status 200, or the message of its
    [ValueError] with status 400. *)
Theorem X9_validated_request_runs_matcher :
  forall (nltk : Nltk) (repr : json -> string) (req : request)
         (fields : list (string * json)) (items : list json) (job : string)
         (pairs : list (string * string)),
    is_json req = true ->
    get_json req = Some (JDict fields) ->
    Py.lookup "resumes" fields = Some (JList items) ->
    Py.lookup "job_description" fields = Some (JStr job) ->
    items <> [] ->
    Py.strip job <> "" ->
    map (read_resume repr) items = map Some pairs ->
    match_endpoint repr req
    = match match_resumes (map snd pairs) (map fst pairs) job with
      | Ok results => (ResultsBody results (List.length results), 200)
      | Raise (ValueError msg) => (ErrorBody msg, 400)
      end.
Proof. intros. now apply (endpoint_validated repr req fields items job pairs). Qed.

Lemma X9_witness :
  @match_endpoint RefNltk.inst (fun _ => "")
    {| is_json := true;
       get_json :=
         Some (JDict [("job_description", JStr "python");
                      ("resumes",
                       JList [JDict [("name", JStr "a.pdf");
                                     ("content", JStr "Python developer")];
                              JDict [("content", JStr "Graphic designer");
                                     ("name", JNum (7 # 1))]])]) |}
  = match @match_resumes RefNltk.inst
            ["Python developer"; "Graphic designer"] ["a.pdf"; ""] "python" with
    | Ok results => (ResultsBody results (List.length results), 200)
    | Raise (ValueError msg) => (ErrorBody msg, 400)
    end.
Proof.
  apply (X9_validated_request_runs_matcher RefNltk.inst (fun _ => "") _
           [("job_description", JStr "python");
            ("resumes",
             JList [JDict [("name", JStr "a.pdf");
                           ("content", JStr "Python developer")];
                    JDict [("content", JStr "Graphic designer");
                           ("name", JNum (7 # 1))]])]
           [JDict [("name", JStr "a.pdf"); ("content", JStr "Python developer")];
            JDict [("content", JStr "Graphic designer"); ("name", JNum (7 # 1))]]
           "python"
           [("a.pdf", "Python developer"); ("", "Graphic designer")]);
    first [reflexivity | discriminate].
Defined.

(** X10: a response with status 200 carries a result list with one entry
    per submitted resume, at least one, and [total_matched] is its length;
    the list is sorted by non-increasing score and no score is
    negative. *)
Theorem X10_success_response_shape :
  forall (nltk : Nltk) (repr : json -> string) (req : request) (body : payload),
    match_endpoint repr req = (body, 200) ->
    exists fields items results,
      get_json req = Some (JDict fields) /\
      Py.lookup "resumes" fields = Some (JList items) /\
      body = ResultsBody results (List.length results) /\
      List.length results = List.length items /\
      1 <= List.length items /\
      StronglySorted score_ge results /\
      Forall (fun e => (0 <= score e)%R) results.
Proof.
  intros nltk repr req body H.
  destruct (match_endpoint_cases repr req)
    as [[error [E _]] | [[rest E] | [E | Hcase]]];
    try (rewrite E in H; discriminate).
  destruct Hcase as [fields [items [job [texts [names
    [_ [Hd [Hr [_ [Hne [_ [_ [Ht [Hn E]]]]]]]]]]]]]].
  rewrite E in H.
  destruct (match_resumes texts names job) as [res | [msg]] eqn:Hm;
    [| discriminate].
  injection H as <-.
  assert (Htne : texts <> []).
  { intros ->. destruct items; [congruence | discriminate]. }
  assert (Htn : List.length texts = List.length names) by congruence.
  destruct (match_resumes_ok_facts texts names job res Htne Htn Hm)
    as [Hl [Hs Hb]].
  exists fields, items, res.
  repeat (split; [first [assumption | reflexivity | congruence] |]).
  split; [destruct items; [congruence | simpl; lia] |].
  split; assumption.
Qed.

Lemma X10_witness :
  exists body,
    @match_endpoint RefNltk.inst (fun _ => "")
      {| is_json := true;
         get_json :=
           Some (JDict [("resumes",
                         JList [JDict [("name", JStr "a.pdf");
                                       ("content", JStr "Python developer")]]);
                        ("job_description", JStr "python")]) |}
    = (body, 200) /\
    exists results, body = ResultsBody results 1.
Proof.
  destruct (@match_resumes_returns RefNltk.inst
              ["Python developer"] ["a.pdf"] "python")
    as [scores [_ Hm]].
  - discriminate.
  - reflexivity.
  - apply (vocabulary_not_nil _ "python");
      [left; vm_compute; reflexivity | vm_compute; discriminate].
  - assert (Hend :
      @match_endpoint RefNltk.inst (fun _ => "")
        {| is_json := true;
           get_json :=
             Some (JDict [("resumes",
                           JList [JDict [("name", JStr "a.pdf");
                                         ("content", JStr "Python developer")]]);
                          ("job_description", JStr "python")]) |}
      = (ResultsBody (sort_desc (results ["a.pdf"] scores))
                     (List.length (sort_desc (results ["a.pdf"] scores))), 200)).
    { assert (Hitems : [JDict [("name", JStr "a.pdf");
                               ("content", JStr "Python developer")]] <> [])
        by discriminate.
      assert (Hjob : Py.strip "python" <> "") by (vm_compute; discriminate).
      rewrite (endpoint_validated (fun _ => "")
                 {| is_json := true;
                    get_json :=
                      Some (JDict [("resumes",
                                    JList [JDict [("name", JStr "a.pdf");
                                                  ("content", JStr "Python developer")]]);
                                   ("job_description", JStr "python")]) |}
                 [("resumes",
                   JList [JDict [("name", JStr "a.pdf");
                                 ("content", JStr "Python developer")]]);
                  ("job_description", JStr "python")]
                 [JDict [("name", JStr "a.pdf");
                         ("content", JStr "Python developer")]]
                 "python" [("a.pdf", "Python developer")]
                 eq_refl eq_refl eq_refl eq_refl Hitems Hjob eq_refl).
      change (map snd [("a.pdf", "Python developer")]) with ["Python developer"].
      change (map fst [("a.pdf", "Python developer")]) with ["a.pdf"].
      rewrite Hm. reflexivity. }
    eexists. split; [exact Hend |].
    destruct (X10_success_response_shape RefNltk.inst (fun _ => "") _ _ Hend)
      as [fields [items [res [Hd [Hr [Hb [Hl _]]]]]]].
    injection Hd as <-. injection Hr as <-.
    exists res. rewrite Hb. f_equal. exact Hl.
Defined.

(** X11: whatever the request, the answer never carries the
    length-mismatch message of [match_resumes]: [match] fills the two
    lists side by side, so they have one length when it calls. *)
Theorem X11_endpoint_never_length_mismatch :
  forall (nltk : Nltk) (repr : json -> string) (req : request),
    fst (match_endpoint repr req)
    <> ErrorBody "resume_texts and resume_names must have the same length".
Proof.
  intros nltk repr req.
  destruct (match_endpoint_cases repr req)
    as [[error [E Hin]] | [[rest E] | [E | Hcase]]].
  - rewrite E. simpl in *.
    intuition (subst; discriminate).
  - rewrite E. simpl. discriminate.
  - rewrite E. simpl. discriminate.
  - destruct Hcase as [fields [items [job [texts [names
      [_ [_ [_ [_ [_ [_ [_ [Ht [Hn E]]]]]]]]]]]]]].
    rewrite E.
    destruct (match_resumes texts names job) as [res | e] eqn:Hm;
      [simpl; discriminate |].
    apply match_resumes_raise_inv in Hm; [| congruence].
    subst e. simpl. discriminate.
Qed.

(** X12: a validated request in which neither the job description nor
    any resume content keeps a term for the vectorizer (texts of stop
    words, punctuation or single characters) is answered with status 400
    and the vectorizer's message, not with zero scores. *)
Theorem X12_request_without_terms_rejected :
  forall (nltk : Nltk) (repr : json -> string) (req : request)
         (fields : list (string * json)) (items : list json) (job : string)
         (pairs : list (string * string)),
    is_json req = true ->
    get_json req = Some (JDict fields) ->
    Py.lookup "resumes" fields = Some (JList items) ->
    Py.lookup "job_description" fields = Some (JStr job) ->
    items <> [] ->
    Py.strip job <> "" ->
    map (read_resume repr) items = map Some pairs ->
    Forall (fun d => Sklearn.analyze (preprocess_text d) = [])
           (job :: map snd pairs) ->
    match_endpoint repr req
    = (ErrorBody "empty vocabulary; perhaps the documents only contain stop words",
       400).
Proof.
  intros nltk repr req fields items job pairs Hj Hd Hr Hjob Hne Hstrip Hread Hall.
  rewrite (endpoint_validated repr req fields items job pairs
             Hj Hd Hr Hjob Hne Hstrip Hread).
  assert (Hp : map snd pairs <> []).
  { destruct pairs; [| discriminate].
    destruct items; [congruence | discriminate]. }
  rewrite match_resumes_valid by (exact Hp || now rewrite !length_map).
  unfold similarity_scores.
  rewrite fit_transform_empty; [reflexivity |].
  change (preprocess_text job :: map preprocess_text (map snd pairs))
    with (map preprocess_text (job :: map snd pairs)).
  apply Forall_map. exact Hall.
Qed.

Lemma X12_witness :
  @match_endpoint RefNltk.inst (fun _ => "")
    {| is_json := true;
       get_json :=
         Some (JDict [("resumes",
                       JList [JDict [("name", JStr "a.pdf");
                                     ("content", JStr "I am the same")];
                              JDict [("name", JStr "b.pdf");
                                     ("content", JStr "C, R & D.")]]);
                      ("job_description", JStr "Who is it?")]) |}
  = (ErrorBody "empty vocabulary; perhaps the documents only contain stop words",
     400).
Proof.
  assert (Hitems : [JDict [("name", JStr "a.pdf"); ("content", JStr "I am the same")];
                    JDict [("name", JStr "b.pdf"); ("content", JStr "C, R & D.")]]
                   <> []) by discriminate.
  assert (Hjob : Py.strip "Who is it?" <> "") by (vm_compute; discriminate).
  apply (X12_request_without_terms_rejected RefNltk.inst (fun _ => "")
           {| is_json := true;
              get_json :=
                Some (JDict [("resumes",
                              JList [JDict [("name", JStr "a.pdf");
                                            ("content", JStr "I am the same")];
                                     JDict [("name", JStr "b.pdf");
                                            ("content", JStr "C, R & D.")]]);
                             ("job_description", JStr "Who is it?")]) |}
           [("resumes",
             JList [JDict [("name", JStr "a.pdf"); ("content", JStr "I am the same")];
                    JDict [("name", JStr "b.pdf"); ("content", JStr "C, R & D.")]]);
            ("job_description", JStr "Who is it?")]
           [JDict [("name", JStr "a.pdf"); ("content", JStr "I am the same")];
            JDict [("name", JStr "b.pdf"); ("content", JStr "C, R & D.")]]
           "Who is it?"
           [("a.pdf", "I am the same"); ("b.pdf", "C, R & D.")]
           eq_refl eq_refl eq_refl eq_refl Hitems Hjob eq_refl).
  simpl map.
  repeat (apply Forall_cons; [vm_compute; reflexivity |]). apply Forall_nil.
Defined.

(** X13: validation of the resumes stops at the first one the loop does
    not accept: when the resumes before position [n] are accepted and the
    one at position [n] is not, the answer is the 400 error of that resume,
    which names the index [n]; the resumes after it play no part. *)
Theorem X13_first_rejected_resume_reported :
  forall (nltk : Nltk) (repr : json -> string) (req : request)
         (fields : list (string * json)) (pre post : list json) (bad : json)
         (job : string) (pairs : list (string * string)),
    is_json req = true ->
    get_json req = Some (JDict fields) ->
    Py.lookup "resumes" fields = Some (JList (List.app pre (bad :: post))) ->
    Py.lookup "job_description" fields = Some (JStr job) ->
    Py.strip job <> "" ->
    map (read_resume repr) pre = map Some pairs ->
    read_resume repr bad = None ->
    exists rest,
      check_resume repr (List.length pre) bad
      = inl (String.append "Resume at index "
               (String.append (Py.str_of_nat (List.length pre)) rest)) /\
      match_endpoint repr req
      = (ErrorBody (String.append "Resume at index "
                      (String.append (Py.str_of_nat (List.length pre)) rest)),
         400).
Proof.
  intros nltk repr req fields pre post bad job pairs Hj Hd Hr Hjob Hstrip Hpre Hbad.
  assert (Hc : exists rest,
             check_resume repr (List.length pre) bad
             = inl (String.append "Resume at index "
                      (String.append (Py.str_of_nat (List.length pre)) rest))).
  { unfold check_resume, read_resume in *.
    destruct bad; try (eexists; reflexivity).
    destruct (Py.lookup "name" fields0); [| eexists; reflexivity].
    destruct (Py.lookup "content" fields0); [discriminate | eexists; reflexivity]. }
  destruct Hc as [rest Hc]. exists rest. split; [exact Hc |].
  unfold match_endpoint.
  rewrite (match_body_validated repr req fields (List.app pre (bad :: post)) job
             Hj Hd Hr Hjob); [| now destruct pre | exact Hstrip].
  rewrite (extract_rejects repr pre post bad pairs _ Hpre 0 [] [] Hc).
  reflexivity.
Qed.

Lemma X13_witness :
  exists rest,
    @match_endpoint RefNltk.inst (fun _ => "")
      {| is_json := true;
         get_json :=
           Some (JDict [("resumes",
                         JList [JDict [("name", JStr "a.pdf");
                                       ("content", JStr "Python developer")];
                                JDict [("name", JStr "b.pdf")];
                                JStr "not looked at"]);
                        ("job_description", JStr "python")]) |}
    = (ErrorBody (String.append "Resume at index "
                    (String.append (Py.str_of_nat 1) rest)), 400).
Proof.
  assert (Hjob : Py.strip "python" <> "") by (vm_compute; discriminate).
  destruct (X13_first_rejected_resume_reported RefNltk.inst (fun _ => "")
              {| is_json := true;
                 get_json :=
                   Some (JDict [("resumes",
                                 JList [JDict [("name", JStr "a.pdf");
                                               ("content", JStr "Python developer")];
                                        JDict [("name", JStr "b.pdf")];
                                        JStr "not looked at"]);
                                ("job_description", JStr "python")]) |}
              [("resumes",
                JList [JDict [("name", JStr "a.pdf");
                              ("content", JStr "Python developer")];
                       JDict [("name", JStr "b.pdf")];
                       JStr "not looked at"]);
               ("job_description", JStr "python")]
              [JDict [("name", JStr "a.pdf"); ("content", JStr "Python developer")]]
              [JStr "not looked at"]
              (JDict [("name", JStr "b.pdf")])
              "python" [("a.pdf", "Python developer")]
              eq_refl eq_refl eq_refl eq_refl Hjob eq_refl eq_refl)
    as [rest [_ H]].
  exists rest. exact H.
Defined.

(** X14: the answer has status 500 exactly when the content type is JSON
    and the body cannot be parsed, or is [true] or a number other than
    zero (the test [in] raises [TypeError]), or is a string or a list that
    contains both field names ([get] raises [AttributeError]).  A body
    that is an object is never answered with 500. *)
Theorem X14_internal_error_iff :
  forall (nltk : Nltk) (repr : json -> string) (req : request),
    snd (match_endpoint repr req) = 500 <->
    is_json req = true /\
    match get_json req with
    | None => True
    | Some JNull => False
    | Some (JBool b) => b = true
    | Some (JNum q) => Qeq_bool q 0 = false
    | Some (JStr s) =>
        PyStr.contains s "resumes" = true /\
        PyStr.contains s "job_description" = true
    | Some (JList items) =>
        existsb (Py.is_str "resumes") items = true /\
        existsb (Py.is_str "job_description") items = true
    | Some (JDict _) => False
    end.
Proof.
  intros nltk repr [j body]. unfold match_endpoint, match_body. simpl.
  destruct j; simpl; [| split; [discriminate | intros [H _]; discriminate]].
  destruct body as [data |]; [| simpl; tauto].
  destruct data as [| b | q | s | items | fields].
  - simpl. split; [discriminate | tauto].
  - destruct b; simpl; split; try discriminate; try tauto.
    intros [_ H]; discriminate.
  - simpl. destruct (Qeq_bool q 0); simpl; split; try discriminate; try tauto.
    intros [_ H]; discriminate.
  - destruct s as [| c s].
    + simpl. split; [discriminate | intros [_ [H _]]; discriminate].
    + change (Py.truthy (JStr (String c s))) with true. cbv beta iota. simpl negb.
      cbv iota. unfold Py.contains, bind_outcome.
      generalize (PyStr.contains (String c s) "resumes")
                 (PyStr.contains (String c s) "job_description").
      intros [] []; simpl; split; try discriminate; try tauto;
        intros [_ [H1 H2]]; discriminate.
  - destruct items as [| item items].
    + simpl. split; [discriminate | intros [_ [H _]]; discriminate].
    + change (Py.truthy (JList (item :: items))) with true. simpl negb.
      cbv iota. unfold Py.contains, bind_outcome.
      generalize (existsb (Py.is_str "resumes") (item :: items))
                 (existsb (Py.is_str "job_description") (item :: items)).
      intros [] []; simpl; split; try discriminate; try tauto;
        intros [_ [H1 H2]]; discriminate.
  - split; [| tauto]. intros H. exfalso.
    destruct (Py.truthy (JDict fields)); simpl in H; [| discriminate].
    destruct (Py.lookup "resumes" fields) as [resumes |]; simpl in H;
      [| discriminate].
    destruct (Py.lookup "job_description" fields) as [jd |]; simpl in H;
      [| discriminate].
    destruct resumes as [| | | | items |]; try discriminate.
    destruct items as [| item items]; [discriminate |].
    simpl Nat.eqb in H. cbv iota in H.
    destruct jd as [| | | job | |]; try discriminate.
    destruct (String.eqb (Py.strip job) ""); [discriminate |].
    destruct (extract_inv repr (item :: items) 0 [] [])
      as [[rest E] | [texts [names [E _]]]]; rewrite E in H; [discriminate |].
    destruct (match_resumes texts names job) as [res | [msg]]; discriminate.
Qed.

(** X15: once the body is an object with a non-empty list [resumes], a
    [job_description] that is not a string, or is a string of white space
    only (the empty string included), is answered with status 400 and the
    message of that check; the resumes are not looked at. *)
Theorem X15_blank_job_description_rejected :
  forall (nltk : Nltk) (repr : json -> string) (req : request)
         (fields : list (string * json)) (items : list json) (jd : json),
    is_json req = true ->
    get_json req = Some (JDict fields) ->
    Py.lookup "resumes" fields = Some (JList items) ->
    items <> [] ->
    Py.lookup "job_description" fields = Some jd ->
    (forall job, jd = JStr job ->
                 forallb Py.is_space (list_ascii_of_string job) = true) ->
    match_endpoint repr req
    = (ErrorBody "'job_description' must be a non-empty string", 400).
Proof.
  intros nltk repr req fields items jd Hj Hd Hr Hne Hjd Hblank.
  unfold match_endpoint, match_body.
  rewrite Hj, Hd. simpl negb. cbv iota.
  unfold Py.truthy. rewrite (lookup_some_not_empty _ _ _ Hr). simpl negb. cbv iota.
  unfold Py.contains, Py.get, bind_outcome. rewrite Hr, Hjd. simpl negb. cbv iota.
  destruct items as [| item items]; [congruence |].
  simpl Nat.eqb. cbv iota.
  destruct jd as [| | | job | |]; try reflexivity.
  rewrite (strip_blank job (Hblank job eq_refl)). reflexivity.
Qed.

Lemma X15_witness :
  @match_endpoint RefNltk.inst (fun _ => "")
    {| is_json := true;
       get_json :=
         Some (JDict [("resumes",
                       JList [JDict [("name", JStr "a.pdf");
                                     ("content", JStr "Python developer")]]);
                      ("job_description", JStr "   ")]) |}
  = (ErrorBody "'job_description' must be a non-empty string", 400).
Proof.
  assert (Hitems : [JDict [("name", JStr "a.pdf");
                           ("content", JStr "Python developer")]] <> [])
    by discriminate.
  apply (X15_blank_job_description_rejected RefNltk.inst (fun _ => "")
           {| is_json := true;
              get_json :=
                Some (JDict [("resumes",
                              JList [JDict [("name", JStr "a.pdf");
                                            ("content", JStr "Python developer")]]);
                             ("job_description", JStr "   ")]) |}
           [("resumes",
             JList [JDict [("name", JStr "a.pdf");
                           ("content", JStr "Python developer")]]);
            ("job_description", JStr "   ")]
           [JDict [("name", JStr "a.pdf"); ("content", JStr "Python developer")]]
           (JStr "   ") eq_refl eq_refl eq_refl Hitems eq_refl).
  intros job E. injection E as <-. reflexivity.
Defined.

(** * A complete ranking

    One query and three candidates: the first shares terms with the query,
    the second shares none, the third is empty.  The first is ranked first
    with a positive score; the other two follow with the score [0] in
    input order. *)
Example ranking_of_three_candidates :
  exists s,
    (0 < s)%R /\
    @match_resumes RefNltk.inst
      ["Experienced Python developer skilled in machine learning and data science";
       "Graphic designer with Adobe Photoshop expertise";
       ""]
      ["A"; "B"; "C"]
      "Looking for a Python developer with machine learning experience"
    = Ok [{| name := "A"; score := s |};
          {| name := "B"; score := 0%R |};
          {| name := "C"; score := 0%R |}].
Proof.
  set (texts := ["Experienced Python developer skilled in machine learning and data science";
                 "Graphic designer with Adobe Photoshop expertise"; ""]).
  set (job := "Looking for a Python developer with machine learning experience").
  set (f := fun t => Sklearn.cosine (@doc_row RefNltk.inst texts job job)
                                    (@doc_row RefNltk.inst texts job t)).
  assert (Hv : Sklearn.vocabulary (@corpus RefNltk.inst texts job) <> []).
  { apply (vocabulary_not_nil _ "graphic designer adobe photoshop expertise");
      [right; right; left; vm_compute; reflexivity | vm_compute; discriminate]. }
  assert (HA : (0 < f (nth 0 texts ""))%R).
  { apply (@score_shared_term RefNltk.inst). exists "python".
    split; vm_compute; tauto. }
  assert (HB : f (nth 1 texts "") = 0%R).
  { pose proof (@score_bounds RefNltk.inst texts job (nth 1 texts "")) as [Hge _].
    fold (f (nth 1 texts "")) in Hge.
    destruct (Rle_lt_or_eq_dec _ _ Hge) as [Hlt | Heq]; [| now symmetry].
    apply (@score_shared_term RefNltk.inst) in Hlt as [term [Hj Ht]].
    exfalso. vm_compute in Hj, Ht. intuition (subst; discriminate). }
  assert (HC : f (nth 2 texts "") = 0%R).
  { apply (@text_without_terms RefNltk.inst). vm_compute. reflexivity. }
  exists (f (nth 0 texts "")). split; [exact HA |].
  rewrite match_resumes_valid by (discriminate || reflexivity).
  rewrite (similarity_scores_ok _ _ Hv). fold f. unfold bind.
  simpl nth in HA, HB, HC |- *.
  replace (map f texts)
    with [f "Experienced Python developer skilled in machine learning and data science";
          0%R; 0%R]
    by (unfold texts; cbn [map]; now rewrite HB, HC).
  unfold results. cbn [List.length seq map nth].
  unfold sort_desc. cbn [fold_right insert_desc score].
  destruct (Rlt_dec 0 0) as [Hlt | _]; [lra |].
  cbn [insert_desc score].
  destruct (Rlt_dec
              (f "Experienced Python developer skilled in machine learning and data science")
              0) as [Hlt | _]; [lra | reflexivity].
Qed.
